(** * Travel emissions calculator: [emissions_bike_car.py]

    A shallow embedding of the computation performed by the script, from
    the values returned by its input widgets down to the sorted plot data.

    Number model.  Python [float]s are idealised as exact rationals ([Q]);
    Python [int]s are [Z] and are injected into [Q] where the script mixes
    them with floats.  Equalities between computed quantities are therefore
    stated with [==] ([Qeq]) unless the two sides are the very same
    expression.  Rounding, underflow to 0, overflow to infinity and NaN
    are outside this model, so the statements below are kept to what
    binary64 preserves: equalities between values computed by the same
    operations, and orderings that are not strict, which rounding keeps.
    Strict orderings are stated only between quantities that do not
    depend on the distance.  The factor
    table, which depends on no numeric input, is additionally evaluated in
    binary64 in [Module Binary64]. *)

From Stdlib Require Import QArith Qfield Lqa ZArith Lia Bool String List.
From Stdlib Require Import Sorted Permutation Floats Qabs.
Import ListNotations.

Open Scope string_scope.
Open Scope list_scope.
Open Scope Q_scope.

(** ** Exceptions *)

(** The two Python exceptions the computation can raise: indexing a dict
    with an absent key, and dividing by the integer zero. *)
Inductive exn : Type :=
| KeyError (key : string)
| ZeroDivisionError.

Definition exc (A : Type) : Type := (exn + A)%type.

Definition ret {A : Type} (a : A) : exc A := inr a.

Definition raise {A : Type} (e : exn) : exc A := inl e.

Definition bind {A B : Type} (m : exc A) (k : A -> exc B) : exc B :=
  match m with
  | inl e => inl e
  | inr a => k a
  end.

Notation "x <- m ;; k" := (bind m (fun x => k))
  (at level 61, m at next level, right associativity).

(** ** Insertion-ordered dictionaries with string keys *)

(** A Python dict iterates over its keys in insertion order; the comparison
    data and the ties of the sort depend on that order, so a dict is kept
    as the list of its items. *)

Module Dict.

Definition t (V : Type) : Type := list (string * V).

(** [d.get(k)] *)
Fixpoint get {V : Type} (d : t V) (k : string) : option V :=
  match d with
  | [] => None
  | (k', v) :: rest => if k' =? k then Some v else get rest k
  end.

(** [d.get(k, default)] *)
Definition get_or {V : Type} (d : t V) (k : string) (default : V) : V :=
  match get d k with
  | Some v => v
  | None => default
  end.

(** [d[k]] *)
Definition getitem {V : Type} (d : t V) (k : string) : exc V :=
  match get d k with
  | Some v => ret v
  | None => raise (KeyError k)
  end.

(** [d[k] = v]: an existing key keeps its position, a new key goes last. *)
Fixpoint setitem {V : Type} (d : t V) (k : string) (v : V) : t V :=
  match d with
  | [] => [(k, v)]
  | (k', v') :: rest =>
      if k' =? k then (k', v) :: rest else (k', v') :: setitem rest k v
  end.

(** Iterating over a dict yields its keys in insertion order. *)
Definition keys {V : Type} (d : t V) : list string := map fst d.

Definition items {V : Type} (d : t V) : list (string * V) := d.

(** [{k: v for ...}] from the key/value pairs in the order produced. *)
Definition of_pairs {V : Type} (kvs : list (string * V)) : t V :=
  fold_left (fun d kv => setitem d (fst kv) (snd kv)) kvs [].

End Dict.

(** [x in [a, b, ...]] on strings. *)
Definition mem (x : string) (l : list string) : bool :=
  existsb (String.eqb x) l.

(** [x / n] for a float [x] and an int [n].  Python also raises
    [OverflowError] for an int too large to convert to a float; the slider
    delivers 1 to 5, and that outcome is not modelled. *)
Definition fdiv (x : Q) (n : Z) : exc Q :=
  if (n =? 0)%Z then raise ZeroDivisionError else ret (x / inject_Z n).

(** ** [sorted(items, key=lambda x: x[1])] *)

(** Python's [sorted] is a stable sort that only asks whether one key is
    smaller than another.  It is modelled by insertion from the right: an
    element is placed in front of the first element of the sorted tail
    whose key is not smaller than its own. *)
Fixpoint insert_by_value (x : string * Q) (l : list (string * Q))
  : list (string * Q) :=
  match l with
  | [] => [x]
  | y :: rest =>
      if Qle_bool (snd x) (snd y) then x :: y :: rest
      else y :: insert_by_value x rest
  end.

Fixpoint sorted_by_value (l : list (string * Q)) : list (string * Q) :=
  match l with
  | [] => []
  | x :: rest => insert_by_value x (sorted_by_value rest)
  end.

(** ** The script's tables *)

Definition car_modes : list string := ["Small Car"; "Electric Car"].

Definition trips_per_year : Z := 520.

Definition KCAL_PER_KM : Dict.t Z :=
  [ ("Walking (including food fuel)", 80%Z);
    ("Standard Bike", 50%Z);
    ("Lightweight Bike", 40%Z);
    ("E-Bike", 20%Z) ].

Definition embodied_emissions : Dict.t Q :=
  [ ("Walking (including food fuel)", 0.0);
    ("Standard Bike", 0.02);
    ("Lightweight Bike", 0.016);
    ("E-Bike", 0.05);
    ("Small Car", 0.44);
    ("Electric Car", 0.24);
    ("Bus (per passenger)", 0.12);
    ("Local Electric Train", 0.00935) ].

(** ** The computation *)

(** Lines 23-26: the slider is consulted for the two car modes only. *)
Definition passengers_of (vehicle_type : string) (slider : Z) : Z :=
  if mem vehicle_type car_modes then slider else 1%Z.

(** Line 31. *)
Definition multiplier_of (view : string) : Z :=
  if view =? "Per Year" then trips_per_year else 1%Z.

(** Line 36. *)
Definition food_emission_per_kcal (diet_type : string) : Q :=
  if diet_type =? "Average Western" then 0.0025 else 0.0012.

(** Lines 59-62: one pass over the keys of [embodied_emissions]. *)
Definition EMISSIONS_FACTORS_step (food_emission_per_kcal : Q)
  (acc : exc (Dict.t Q)) (mode : string) : exc (Dict.t Q) :=
  factors <- acc ;;
  let food_emissions :=
    inject_Z (Dict.get_or KCAL_PER_KM mode 0%Z) * food_emission_per_kcal in
  embodied <- Dict.getitem embodied_emissions mode ;;
  ret (Dict.setitem factors mode (embodied + food_emissions)).

Definition EMISSIONS_FACTORS (food_emission_per_kcal : Q) : exc (Dict.t Q) :=
  fold_left (EMISSIONS_FACTORS_step food_emission_per_kcal)
    (Dict.keys embodied_emissions) (ret []).

(** Lines 86-89: the value computed for one key of the comprehension. *)
Definition emissions_data_entry (factors : Dict.t Q) (vehicle_type : string)
  (passengers : Z) (distance_km : Q) (multiplier : Z) (mode : string)
  : exc (string * Q) :=
  factor <- Dict.getitem factors mode ;;
  shared <- fdiv factor
    (if (mode =? vehicle_type) && mem mode car_modes
     then passengers else 1%Z) ;;
  ret (mode, shared * distance_km * inject_Z multiplier).

Fixpoint comprehension {A B : Type} (f : A -> exc B) (l : list A)
  : exc (list B) :=
  match l with
  | [] => ret []
  | a :: rest => b <- f a ;; bs <- comprehension f rest ;; ret (b :: bs)
  end.

(** What the script has computed when it reaches the plot. *)
Record Result : Type := mkResult {
  passengers : Z;
  multiplier : Z;
  factors : Dict.t Q;
  base_factor : Q;
  emission_factor : Q;
  total_emissions : Q;
  (** line 74 computes the undivided total only inside this caption *)
  vehicle_total_caption : option Q;
  solo_car_emissions : Q;
  emissions_saved_vs_solo : Q;
  emissions_data : Dict.t Q;
  solo_baseline : Q;
  savings_vs_car : Dict.t Q;
  sorted_modes : list (string * Q);
  modes : list string;
  emissions : list Q;
  savings : list Q;
  colors : list string
}.

(** The script from its widget values: [distance_km] (line 9),
    [vehicle_type] (line 11), the value of the passenger slider (line 24),
    [view] (line 29) and [diet_type] (line 35). *)
Definition evaluate (distance_km : Q) (vehicle_type : string) (slider : Z)
  (view diet_type : string) : exc Result :=
  let passengers := passengers_of vehicle_type slider in
  let multiplier := multiplier_of view in
  factors <- EMISSIONS_FACTORS (food_emission_per_kcal diet_type) ;;
  base_factor <- Dict.getitem factors vehicle_type ;;
  emission_factor <- fdiv base_factor passengers ;;
  let total_emissions := emission_factor * distance_km * inject_Z multiplier in
  let vehicle_total_caption :=
    if (1 <? passengers)%Z && mem vehicle_type car_modes
    then Some (base_factor * distance_km * inject_Z multiplier)
    else None in
  small_car <- Dict.getitem embodied_emissions "Small Car" ;;
  let solo_car_emissions := small_car * distance_km * inject_Z multiplier in
  let emissions_saved_vs_solo := solo_car_emissions - total_emissions in
  entries <- comprehension
    (emissions_data_entry factors vehicle_type passengers distance_km
       multiplier)
    (Dict.keys factors) ;;
  let emissions_data := Dict.of_pairs entries in
  small_car' <- Dict.getitem embodied_emissions "Small Car" ;;
  let solo_baseline := small_car' * distance_km * inject_Z multiplier in
  let savings_vs_car :=
    Dict.of_pairs
      (map (fun kv => (fst kv, solo_baseline - snd kv))
         (Dict.items emissions_data)) in
  let sorted_modes := sorted_by_value (Dict.items emissions_data) in
  let modes := map fst sorted_modes in
  let emissions := map snd sorted_modes in
  savings <- comprehension (Dict.getitem savings_vs_car) modes ;;
  let colors :=
    map (fun m => if m =? vehicle_type then "tomato" else "seagreen") modes in
  ret {| passengers := passengers;
         multiplier := multiplier;
         factors := factors;
         base_factor := base_factor;
         emission_factor := emission_factor;
         total_emissions := total_emissions;
         vehicle_total_caption := vehicle_total_caption;
         solo_car_emissions := solo_car_emissions;
         emissions_saved_vs_solo := emissions_saved_vs_solo;
         emissions_data := emissions_data;
         solo_baseline := solo_baseline;
         savings_vs_car := savings_vs_car;
         sorted_modes := sorted_modes;
         modes := modes;
         emissions := emissions;
         savings := savings;
         colors := colors |}.

(** ** The widgets *)

(** Lines 11-20: the options of the select box. *)
Definition vehicle_types : list string :=
  [ "Walking (including food fuel)";
    "Standard Bike";
    "Lightweight Bike";
    "E-Bike";
    "Small Car";
    "Electric Car";
    "Bus (per passenger)";
    "Local Electric Train" ].

(** Line 35. *)
Definition diet_types : list string :=
  ["Average Western"; "Low-carbon / Plant-based"].

(** ** The factor table in binary64 *)

(** Lines 36-62 once more, on IEEE 754 binary64 numbers as Python computes
    them: the literals are rounded to the nearest double and an [int]
    operand is converted before the multiplication. *)
Module Binary64.

#[local] Set Warnings "-inexact-float".

Definition of_int (n : Z) : float := PrimFloat.of_uint63 (Uint63.of_Z n).

Definition embodied_emissions : Dict.t float :=
  [ ("Walking (including food fuel)", 0.0%float);
    ("Standard Bike", 0.02%float);
    ("Lightweight Bike", 0.016%float);
    ("E-Bike", 0.05%float);
    ("Small Car", 0.44%float);
    ("Electric Car", 0.24%float);
    ("Bus (per passenger)", 0.12%float);
    ("Local Electric Train", 0.00935%float) ].

Definition food_emission_per_kcal (diet_type : string) : float :=
  if diet_type =? "Average Western" then 0.0025%float else 0.0012%float.

Definition EMISSIONS_FACTORS_step (food_emission_per_kcal : float)
  (acc : exc (Dict.t float)) (mode : string) : exc (Dict.t float) :=
  factors <- acc ;;
  let food_emissions :=
    (of_int (Dict.get_or KCAL_PER_KM mode 0%Z) * food_emission_per_kcal)%float
  in
  embodied <- Dict.getitem embodied_emissions mode ;;
  ret (Dict.setitem factors mode (embodied + food_emissions)%float).

Definition EMISSIONS_FACTORS (food_emission_per_kcal : float)
  : exc (Dict.t float) :=
  fold_left (EMISSIONS_FACTORS_step food_emission_per_kcal)
    (Dict.keys embodied_emissions) (ret []).

End Binary64.

(** ** Vocabulary of the statements *)

Definition value_le (x y : string * Q) : Prop := snd x <= snd y.

(** [precedes x y l]: some occurrence of [x] in [l] has [y] further right. *)
Inductive precedes {A : Type} (x y : A) : list A -> Prop :=
| precedes_here (l : list A) : In y l -> precedes x y (x :: l)
| precedes_later (z : A) (l : list A) : precedes x y l -> precedes x y (z :: l).

(** The dict built by lines 59-62, for a food emission [c] per kcal. *)
Definition factor_table (c : Q) : Dict.t Q :=
  map (fun kv =>
         (fst kv,
          snd kv + inject_Z (Dict.get_or KCAL_PER_KM (fst kv) 0%Z) * c))
    embodied_emissions.

(** The divisor of line 87. *)
Definition divisor (vehicle_type : string) (passengers : Z) (mode : string)
  : Z :=
  if (mode =? vehicle_type) && mem mode car_modes then passengers else 1%Z.

(** The dict built by lines 86-89 from a factor table [F]. *)
Definition value_table (F : Dict.t Q) (vehicle_type : string) (passengers : Z)
  (distance_km : Q) (multiplier : Z) : Dict.t Q :=
  map (fun kv =>
         (fst kv,
          snd kv / inject_Z (divisor vehicle_type passengers (fst kv))
          * distance_km * inject_Z multiplier))
    F.

(** The script reaches its end: the mode is a key of the tables and the
    passenger count it divides by is not zero. *)
Definition runs (vehicle_type : string) (slider : Z) : Prop :=
  In vehicle_type (Dict.keys embodied_emissions)
  /\ passengers_of vehicle_type slider <> 0%Z.

(** What the widgets can return: a distance from [min_value=0.0] upwards,
    one of the eight modes of the select box, and, when the slider is shown
    (for the two car modes), a slider position from 1 to 5. *)
Definition valid_input (distance_km : Q) (vehicle_type : string)
  (slider : Z) : Prop :=
  0 <= distance_km
  /\ In vehicle_type vehicle_types
  /\ (mem vehicle_type car_modes = true -> (1 <= slider <= 5)%Z).

(** Two optional captions of which the second shows [k] times the first,
    both shown or both hidden. *)
Definition scaled (k : Q) (a b : option Q) : Prop :=
  match a, b with
  | Some x, Some y => y == x * k
  | None, None => True
  | _, _ => False
  end.

(** ** The summary banner and the plot *)

(** [x > y] on floats. *)
Definition gt (x y : Q) : bool := negb (Qle_bool x y).

(** Line 32. *)
Definition label_suffix_of (view : string) : string :=
  if view =? "Per Year" then "year" else "trip".

(** Lines 80-83: the message under the summary, with the number it shows. *)
Inductive Banner : Type :=
| Success (saved : Q)
| Warning (more : Q).

Definition banner_of (emissions_saved_vs_solo : Q) : Banner :=
  if gt emissions_saved_vs_solo 0 then Success emissions_saved_vs_solo
  else Warning (Qabs emissions_saved_vs_solo).

(** The exceptions of the plotting part: [max] of an empty list, and an
    index past the end of a list. *)
Inductive plot_exn : Type :=
| ValueError
| IndexError.

(** [max(l)] keeps the first of the largest elements. *)
Fixpoint max_from (best : Q) (l : list Q) : Q :=
  match l with
  | [] => best
  | x :: rest => max_from (if gt x best then x else best) rest
  end.

Definition max_of (l : list Q) : plot_exn + Q :=
  match l with
  | [] => inl ValueError
  | x :: rest => inr (max_from x rest)
  end.

(** The text drawn next to a bar (lines 106-117): where it is anchored, the
    width it prints, and the reduction it prints when there is one to
    mention. *)
Record BarText : Type := mkBarText {
  text_x : Q;
  text_width : Q;
  text_reduction : option Q
}.

(** Lines 106-117: one text per bar, the bars having the widths of
    [emissions]; [savings[i]] is read along with the [i]-th bar. *)
Fixpoint bar_texts (emissions widths savings : list Q)
  : plot_exn + list BarText :=
  match widths with
  | [] => inr []
  | width :: widths' =>
      match savings with
      | [] => inl IndexError
      | saved :: savings' =>
          match max_of emissions with
          | inl e => inl e
          | inr top =>
              match bar_texts emissions widths' savings' with
              | inl e => inl e
              | inr rest =>
                  inr ({| text_x := width + top * 0.01;
                          text_width := width;
                          text_reduction :=
                            if gt saved 0.1 then Some saved else None |}
                       :: rest)
              end
          end
      end
  end.

Record Plot : Type := mkPlot {
  texts : list BarText;
  xlim : Q * Q;
  label_suffix : string
}.

(** Lines 103-123, as far as numbers and the unit of the axis go.  What
    matplotlib does with the numbers it is handed, such as refusing an
    infinite axis limit, is not part of this model. *)
Definition plot (r : Result) (view : string) : plot_exn + Plot :=
  match bar_texts (emissions r) (emissions r) (savings r) with
  | inl e => inl e
  | inr texts =>
      match max_of (emissions r) with
      | inl e => inl e
      | inr top =>
          inr {| texts := texts;
                 xlim := (0, top * 1.25);
                 label_suffix := label_suffix_of view |}
      end
  end.

(** * Properties *)

Lemma bind_ret {A B : Type} (a : A) (k : A -> exc B) : bind (ret a) k = k a.
Proof. reflexivity. Qed.

(** ** Dictionaries *)

Section DictFacts.

Context {V : Type}.

Lemma get_not_in (d : Dict.t V) (k : string) :
  ~ In k (Dict.keys d) -> Dict.get d k = None.
Proof.
  induction d as [|[k' v'] d IH]; simpl; intros Hk; [reflexivity|].
  destruct (String.eqb_spec k' k) as [->|Hne].
  - exfalso. apply Hk. now left.
  - apply IH. intros Hin. apply Hk. now right.
Qed.

Lemma get_in (d : Dict.t V) (k : string) (v : V) :
  NoDup (Dict.keys d) -> In (k, v) d -> Dict.get d k = Some v.
Proof.
  induction d as [|[k' v'] d IH]; simpl; intros Hnd Hin; [contradiction|].
  inversion Hnd as [|? ? Hk' Hnd']; subst.
  destruct Hin as [Heq|Hin].
  - inversion Heq; subst. now rewrite String.eqb_refl.
  - destruct (String.eqb_spec k' k) as [->|Hne].
    + exfalso. apply Hk'. change k with (fst (k, v)). now apply in_map.
    + now apply IH.
Qed.

Lemma get_some_in (d : Dict.t V) (k : string) (v : V) :
  Dict.get d k = Some v -> In (k, v) d.
Proof.
  induction d as [|[k' v'] d IH]; simpl; [discriminate|].
  destruct (String.eqb_spec k' k) as [->|Hne].
  - intros [= ->]. now left.
  - intros H. right. now apply IH.
Qed.

Lemma setitem_fresh (d : Dict.t V) (k : string) (v : V) :
  ~ In k (Dict.keys d) -> Dict.setitem d k v = d ++ [(k, v)].
Proof.
  induction d as [|[k' v'] d IH]; simpl; intros Hk; [reflexivity|].
  destruct (String.eqb_spec k' k) as [->|Hne].
  - exfalso. apply Hk. now left.
  - rewrite IH; [reflexivity|]. intros Hin. apply Hk. now right.
Qed.

Lemma of_pairs_from (kvs acc : Dict.t V) :
  NoDup (Dict.keys (acc ++ kvs)) ->
  fold_left (fun d kv => Dict.setitem d (fst kv) (snd kv)) kvs acc
  = acc ++ kvs.
Proof.
  revert acc. induction kvs as [|[k v] kvs IH]; intros acc Hnd; simpl.
  - now rewrite app_nil_r.
  - assert (Hfresh : ~ In k (Dict.keys acc)).
    { unfold Dict.keys in *. rewrite map_app in Hnd. simpl in Hnd.
      apply NoDup_remove_2 in Hnd. intros Hin. apply Hnd.
      apply in_or_app. now left. }
    rewrite setitem_fresh by assumption.
    rewrite IH; rewrite <- app_assoc; simpl; [reflexivity|assumption].
Qed.

(** A comprehension whose keys are pairwise distinct is the list of its
    pairs, in the order produced. *)
Lemma of_pairs_nodup (kvs : Dict.t V) :
  NoDup (Dict.keys kvs) -> Dict.of_pairs kvs = kvs.
Proof.
  intros Hnd. unfold Dict.of_pairs. now rewrite of_pairs_from.
Qed.

End DictFacts.

(** ** Sorting by value *)

Lemma precedes_in {A : Type} (x y : A) (l : list A) :
  precedes x y l -> In x l /\ In y l.
Proof.
  induction 1 as [l Hy|z l _ [IHx IHy]]; simpl; auto.
Qed.

(** With pairwise distinct keys, the order of two entries is the order of
    their keys. *)
Lemma precedes_of_keys {V : Type} (d : Dict.t V) (x y : string * V) :
  NoDup (Dict.keys d) -> In x d -> In y d ->
  precedes (fst x) (fst y) (Dict.keys d) -> precedes x y d.
Proof.
  induction d as [|e d IH]; simpl; intros Hnd Hx Hy Hp; [contradiction|].
  inversion Hnd as [|? ? He Hnd']; subst.
  assert (Hkey : forall z, In z d -> fst z <> fst e).
  { intros z Hz Heq. apply He. rewrite <- Heq. now apply in_map. }
  inversion Hp as [l Hin Hl|z l Hp' Hl]; subst.
  - destruct Hx as [->|Hx]; [|now destruct (Hkey x Hx)].
    apply precedes_here. destruct Hy as [->|Hy]; [|assumption].
    contradiction.
  - apply precedes_later. apply precedes_in in Hp' as Hboth.
    destruct Hboth as [Hfx Hfy].
    destruct Hx as [->|Hx]; [contradiction|].
    destruct Hy as [->|Hy]; [contradiction|].
    now apply IH.
Qed.

Lemma insert_by_value_perm (x : string * Q) (l : list (string * Q)) :
  Permutation (insert_by_value x l) (x :: l).
Proof.
  induction l as [|y l IH]; simpl; [reflexivity|].
  destruct (Qle_bool (snd x) (snd y)); [reflexivity|].
  rewrite IH. apply perm_swap.
Qed.

Lemma sorted_by_value_perm (l : list (string * Q)) :
  Permutation (sorted_by_value l) l.
Proof.
  induction l as [|x l IH]; simpl; [reflexivity|].
  rewrite insert_by_value_perm. now constructor.
Qed.

Lemma sorted_by_value_in (l : list (string * Q)) (x : string * Q) :
  In x (sorted_by_value l) <-> In x l.
Proof.
  split; apply Permutation_in;
    [apply sorted_by_value_perm | symmetry; apply sorted_by_value_perm].
Qed.

Lemma Qle_bool_false (a b : Q) : Qle_bool a b = false -> b < a.
Proof.
  intros H. apply Qnot_le_lt. intros Hle.
  apply Qle_bool_iff in Hle. congruence.
Qed.

Lemma insert_by_value_sorted (x : string * Q) (l : list (string * Q)) :
  StronglySorted value_le l -> StronglySorted value_le (insert_by_value x l).
Proof.
  induction 1 as [|y l Hl IH Hy]; simpl.
  - repeat constructor.
  - destruct (Qle_bool (snd x) (snd y)) eqn:Hxy.
    + apply Qle_bool_iff in Hxy. constructor.
      * now constructor.
      * constructor; [exact Hxy|].
        rewrite Forall_forall in *. intros z Hz.
        unfold value_le in *. specialize (Hy z Hz). lra.
    + apply Qle_bool_false in Hxy. constructor; [exact IH|].
      rewrite Forall_forall in *. intros z Hz.
      apply (Permutation_in _ (insert_by_value_perm x l)) in Hz.
      destruct Hz as [<-|Hz]; [unfold value_le; lra|now apply Hy].
Qed.

Lemma sorted_by_value_sorted (l : list (string * Q)) :
  StronglySorted value_le (sorted_by_value l).
Proof.
  induction l as [|x l IH]; simpl; [constructor|].
  now apply insert_by_value_sorted.
Qed.

(** Inserting an element leaves the order of the others as it was. *)
Lemma insert_by_value_keeps (x a b : string * Q) (l : list (string * Q)) :
  precedes a b l -> precedes a b (insert_by_value x l).
Proof.
  induction 1 as [l Hb|z l Hab IH]; simpl.
  - destruct (Qle_bool (snd x) (snd a)).
    + apply precedes_later. now apply precedes_here.
    + apply precedes_here.
      apply (Permutation_in _ (Permutation_sym (insert_by_value_perm x l))).
      now right.
  - destruct (Qle_bool (snd x) (snd z)).
    + apply precedes_later. now apply precedes_later.
    + now apply precedes_later.
Qed.

(** The inserted element lands in front of everything not smaller. *)
Lemma insert_by_value_front (x y : string * Q) (l : list (string * Q)) :
  In y l -> snd x <= snd y -> precedes x y (insert_by_value x l).
Proof.
  induction l as [|z l IH]; simpl; intros Hy Hxy; [contradiction|].
  destruct (Qle_bool (snd x) (snd z)) eqn:Hxz.
  - now apply precedes_here.
  - apply Qle_bool_false in Hxz. apply precedes_later.
    destruct Hy as [->|Hy]; [lra|now apply IH].
Qed.

(** Stability: two entries of which the left one is not the larger keep
    their order. *)
Lemma sorted_by_value_stable (x y : string * Q) (l : list (string * Q)) :
  precedes x y l -> snd x <= snd y -> precedes x y (sorted_by_value l).
Proof.
  induction 1 as [l Hy|z l _ IH]; simpl; intros Hxy.
  - apply insert_by_value_front; [|assumption].
    now apply sorted_by_value_in.
  - apply insert_by_value_keeps. now apply IH.
Qed.

(** ** The script in closed form *)

Lemma EMISSIONS_FACTORS_table (c : Q) :
  EMISSIONS_FACTORS c = ret (factor_table c).
Proof. reflexivity. Qed.

Lemma embodied_keys_nodup : NoDup (Dict.keys embodied_emissions).
Proof.
  unfold Dict.keys, embodied_emissions; simpl.
  repeat (constructor; [simpl; intuition discriminate|]).
  constructor.
Qed.

Lemma factor_table_keys (c : Q) :
  Dict.keys (factor_table c) = Dict.keys embodied_emissions.
Proof. reflexivity. Qed.

Lemma value_table_keys (F : Dict.t Q) (vt : string) (p : Z) (d : Q) (m : Z) :
  Dict.keys (value_table F vt p d m) = Dict.keys F.
Proof.
  unfold Dict.keys, value_table. rewrite map_map. reflexivity.
Qed.

Lemma passengers_of_car (vt : string) (slider : Z) :
  mem vt car_modes = true -> passengers_of vt slider = slider.
Proof. unfold passengers_of. now intros ->. Qed.


Lemma divisor_nonzero (vt : string) (slider : Z) (mode : string) :
  passengers_of vt slider <> 0%Z ->
  divisor vt (passengers_of vt slider) mode <> 0%Z.
Proof.
  intros Hp. unfold divisor.
  destruct ((mode =? vt) && mem mode car_modes); [assumption|discriminate].
Qed.

(** On the selected mode the divisor of line 87 is the resolved passenger
    count of lines 23-26. *)
Lemma divisor_selected (vt : string) (slider : Z) :
  divisor vt (passengers_of vt slider) vt = passengers_of vt slider.
Proof.
  unfold divisor, passengers_of. rewrite String.eqb_refl.
  destruct (mem vt car_modes); reflexivity.
Qed.

Lemma valid_input_runs (d : Q) (vt : string) (slider : Z) :
  valid_input d vt slider -> runs vt slider.
Proof.
  intros (_ & Hin & Hs). split; [assumption|].
  unfold passengers_of. destruct (mem vt car_modes); [|discriminate].
  specialize (Hs eq_refl). lia.
Qed.

Lemma fdiv_nonzero (x : Q) (n : Z) :
  n <> 0%Z -> fdiv x n = ret (x / inject_Z n).
Proof.
  intros Hn. unfold fdiv. now destruct (Z.eqb_spec n 0).
Qed.

Lemma getitem_in {V : Type} (d : Dict.t V) (k : string) (v : V) :
  NoDup (Dict.keys d) -> In (k, v) d -> Dict.getitem d k = ret v.
Proof.
  intros Hnd Hin. unfold Dict.getitem. now rewrite (get_in d k v).
Qed.

Lemma comprehension_entries (F : Dict.t Q) (vt : string) (p : Z) (d : Q)
  (m : Z) (G : Dict.t Q) :
  NoDup (Dict.keys F) -> incl G F ->
  (forall mode, divisor vt p mode <> 0%Z) ->
  comprehension (emissions_data_entry F vt p d m) (Dict.keys G)
  = ret (value_table G vt p d m).
Proof.
  intros Hnd Hincl Hdiv.
  induction G as [|[k f] G IH]; [reflexivity|].
  simpl. unfold emissions_data_entry at 1.
  rewrite (getitem_in F k f Hnd) by (apply Hincl; now left).
  fold (divisor vt p k). rewrite bind_ret.
  rewrite fdiv_nonzero by apply Hdiv. rewrite !bind_ret.
  rewrite IH by (intros x Hx; apply Hincl; now right).
  reflexivity.
Qed.

Lemma comprehension_savings (D : Dict.t Q) (b : Q) (l : list (string * Q)) :
  NoDup (Dict.keys D) -> incl l D ->
  comprehension
    (Dict.getitem (map (fun kv => (fst kv, b - snd kv)) D)) (map fst l)
  = ret (map (fun kv => b - snd kv) l).
Proof.
  intros Hnd Hincl.
  induction l as [|[k v] l IH]; [reflexivity|].
  simpl.
  rewrite (getitem_in _ k (b - v)).
  - rewrite bind_ret.
    rewrite IH by (intros x Hx; apply Hincl; now right).
    reflexivity.
  - unfold Dict.keys. rewrite map_map. exact Hnd.
  - change (k, b - v) with ((fun kv => (fst kv, b - snd kv)) (k, v)).
    apply in_map. apply Hincl. now left.
Qed.

Lemma factor_table_nodup (c : Q) : NoDup (Dict.keys (factor_table c)).
Proof. rewrite factor_table_keys. exact embodied_keys_nodup. Qed.

Lemma value_table_nodup (c : Q) (vt : string) (p : Z) (d : Q) (m : Z) :
  NoDup (Dict.keys (value_table (factor_table c) vt p d m)).
Proof. rewrite value_table_keys. apply factor_table_nodup. Qed.

Lemma savings_keys (D : Dict.t Q) (b : Q) :
  Dict.keys (map (fun kv => (fst kv, b - snd kv)) D) = Dict.keys D.
Proof. unfold Dict.keys. rewrite map_map. reflexivity. Qed.

(** Every key of the tables has a factor. *)
Lemma factor_table_total (c : Q) (mode : string) :
  In mode (Dict.keys embodied_emissions) ->
  exists e, In (mode, e) embodied_emissions
    /\ In (mode, e + inject_Z (Dict.get_or KCAL_PER_KM mode 0%Z) * c)
         (factor_table c).
Proof.
  intros Hin. unfold Dict.keys in Hin. apply in_map_iff in Hin.
  destruct Hin as ([k e] & Hk & Hin). simpl in Hk. subst k.
  exists e. split; [assumption|].
  apply (in_map
    (fun kv =>
       (fst kv, snd kv + inject_Z (Dict.get_or KCAL_PER_KM (fst kv) 0%Z) * c))
    _ _ Hin).
Qed.

(** The result of a run that reaches the end of the script, field by
    field. *)
Lemma evaluate_runs (d : Q) (vt : string) (slider : Z) (view diet : string) :
  runs vt slider ->
  exists f : Q,
    In (vt, f) (factor_table (food_emission_per_kcal diet))
    /\ evaluate d vt slider view diet
       = let p := passengers_of vt slider in
         let m := multiplier_of view in
         let F := factor_table (food_emission_per_kcal diet) in
         let total := f / inject_Z p * d * inject_Z m in
         let solo := 0.44 * d * inject_Z m in
         let data := value_table F vt p d m in
         let srt := sorted_by_value data in
         ret {| passengers := p;
                multiplier := m;
                factors := F;
                base_factor := f;
                emission_factor := f / inject_Z p;
                total_emissions := total;
                vehicle_total_caption :=
                  if (1 <? p)%Z && mem vt car_modes
                  then Some (f * d * inject_Z m) else None;
                solo_car_emissions := solo;
                emissions_saved_vs_solo := solo - total;
                emissions_data := data;
                solo_baseline := solo;
                savings_vs_car :=
                  map (fun kv => (fst kv, solo - snd kv)) data;
                sorted_modes := srt;
                modes := map fst srt;
                emissions := map snd srt;
                savings := map (fun kv => solo - snd kv) srt;
                colors :=
                  map (fun k => if k =? vt then "tomato" else "seagreen")
                    (map fst srt) |}.
Proof.
  intros [Hin Hp].
  set (c := food_emission_per_kcal diet).
  destruct (factor_table_total c vt Hin) as (e & _ & Hf).
  set (f := e + inject_Z (Dict.get_or KCAL_PER_KM vt 0%Z) * c) in *.
  exists f. split; [exact Hf|].
  unfold evaluate. fold c.
  rewrite EMISSIONS_FACTORS_table, bind_ret.
  rewrite (getitem_in _ vt f (factor_table_nodup c) Hf), bind_ret.
  rewrite (fdiv_nonzero _ _ Hp), bind_ret.
  change (Dict.getitem embodied_emissions "Small Car") with (@ret Q 0.44).
  rewrite !bind_ret.
  rewrite (comprehension_entries (factor_table c) vt _ d _ (factor_table c)
             (factor_table_nodup c) (incl_refl _)
             (fun mode => divisor_nonzero vt slider mode Hp)).
  rewrite bind_ret.
  rewrite (of_pairs_nodup _ (value_table_nodup c vt _ d _)).
  rewrite bind_ret. unfold Dict.items.
  rewrite of_pairs_nodup
    by (rewrite savings_keys; apply value_table_nodup).
  rewrite comprehension_savings.
  - reflexivity.
  - apply value_table_nodup.
  - intros x Hx. now apply sorted_by_value_in.
Qed.

(** ** Facts about the tables *)

Ltac project :=
  cbn [passengers multiplier factors base_factor emission_factor
       total_emissions vehicle_total_caption solo_car_emissions
       emissions_saved_vs_solo emissions_data solo_baseline savings_vs_car
       sorted_modes modes emissions savings colors].

(** Case analysis on an entry of a table written out in the script. *)
Ltac table_cases H :=
  repeat (destruct H as [H|H]; [injection H as <- <-|]); [..|destruct H].

Lemma vehicle_types_keys : vehicle_types = Dict.keys embodied_emissions.
Proof. reflexivity. Qed.

Lemma food_emission_per_kcal_cases (diet : string) :
  food_emission_per_kcal diet = 0.0025
  \/ food_emission_per_kcal diet = 0.0012.
Proof.
  unfold food_emission_per_kcal.
  destruct (diet =? "Average Western"); [now left|now right].
Qed.

Lemma food_emission_per_kcal_pos (diet : string) :
  0 < food_emission_per_kcal diet.
Proof.
  destruct (food_emission_per_kcal_cases diet) as [-> | ->]; reflexivity.
Qed.

Lemma multiplier_of_cases (view : string) :
  multiplier_of view = 520%Z \/ multiplier_of view = 1%Z.
Proof.
  unfold multiplier_of. destruct (view =? "Per Year"); [now left|now right].
Qed.

Lemma multiplier_of_pos (view : string) : 0 < inject_Z (multiplier_of view).
Proof.
  destruct (multiplier_of_cases view) as [-> | ->]; reflexivity.
Qed.

Lemma factor_table_get (c : Q) (mode : string) (e : Q) :
  In (mode, e) embodied_emissions ->
  Dict.get (factor_table c) mode
  = Some (e + inject_Z (Dict.get_or KCAL_PER_KM mode 0%Z) * c).
Proof.
  intros Hin. apply get_in; [apply factor_table_nodup|].
  apply (in_map
    (fun kv =>
       (fst kv, snd kv + inject_Z (Dict.get_or KCAL_PER_KM (fst kv) 0%Z) * c))
    _ _ Hin).
Qed.

Lemma factor_table_in (c : Q) (mode : string) (f : Q) :
  In (mode, f) (factor_table c) ->
  exists e, In (mode, e) embodied_emissions
    /\ f = e + inject_Z (Dict.get_or KCAL_PER_KM mode 0%Z) * c.
Proof.
  intros Hin. unfold factor_table in Hin. apply in_map_iff in Hin.
  destruct Hin as ([k e] & Heq & Hin). simpl in Heq.
  injection Heq as <- <-. now exists e.
Qed.

Lemma embodied_nonneg (mode : string) (e : Q) :
  In (mode, e) embodied_emissions -> 0 <= e.
Proof.
  intros H. unfold embodied_emissions in H.
  table_cases H; discriminate.
Qed.

Lemma kcal_nonneg (mode : string) :
  0 <= inject_Z (Dict.get_or KCAL_PER_KM mode 0%Z).
Proof.
  unfold Dict.get_or.
  destruct (Dict.get KCAL_PER_KM mode) as [n|] eqn:Hget; [|discriminate].
  apply get_some_in in Hget. unfold KCAL_PER_KM in Hget.
  table_cases Hget; discriminate.
Qed.

Lemma kcal_pos (mode : string) :
  In mode (Dict.keys KCAL_PER_KM) ->
  0 < inject_Z (Dict.get_or KCAL_PER_KM mode 0%Z).
Proof.
  intros H. unfold Dict.keys, KCAL_PER_KM in H. simpl in H.
  repeat (destruct H as [<-|H]; [reflexivity|]). destruct H.
Qed.

Lemma kcal_absent (mode : string) :
  ~ In mode (Dict.keys KCAL_PER_KM) ->
  inject_Z (Dict.get_or KCAL_PER_KM mode 0%Z) = 0.
Proof.
  intros H. unfold Dict.get_or. now rewrite (get_not_in _ _ H).
Qed.

Lemma factor_nonneg (c : Q) (mode : string) (f : Q) :
  0 <= c -> In (mode, f) (factor_table c) -> 0 <= f.
Proof.
  intros Hc Hin. apply factor_table_in in Hin. destruct Hin as (e & He & ->).
  pose proof (embodied_nonneg mode e He) as H1.
  pose proof (kcal_nonneg mode) as H2.
  nra.
Qed.

Lemma value_table_in (F : Dict.t Q) (vt : string) (p : Z) (d : Q) (m : Z)
  (mode : string) (v : Q) :
  In (mode, v) (value_table F vt p d m) <->
  exists f, In (mode, f) F
    /\ v = f / inject_Z (divisor vt p mode) * d * inject_Z m.
Proof.
  unfold value_table. rewrite in_map_iff. split.
  - intros ([k f] & Heq & Hin). simpl in Heq. injection Heq as <- <-.
    now exists f.
  - intros (f & Hin & ->). now exists (mode, f).
Qed.

(** * The factor table *)

(** C3: for every diet, lines 59-62 build a dict with exactly the eight
    keys of the embodied-emissions table, and the factor of each mode is
    its embodied value plus [KCAL_PER_KM.get(mode, 0)] times the food
    emission per kcal of the diet, which is 0.0025 for "Average Western"
    and 0.0012 for "Low-carbon / Plant-based"; a mode absent from the
    calorie table gets its embodied value alone; every factor is
    non-negative, and computed in binary64 every factor is finite and
    non-negative. *)
Theorem buildFactors_table (diet : string) :
  food_emission_per_kcal "Average Western" = 0.0025
  /\ food_emission_per_kcal "Low-carbon / Plant-based" = 0.0012
  /\ (exists F : Dict.t Q,
        EMISSIONS_FACTORS (food_emission_per_kcal diet) = ret F
        /\ Dict.keys F = Dict.keys embodied_emissions
        /\ length (Dict.keys F) = 8%nat
        /\ forall (mode : string) (e : Q),
             In (mode, e) embodied_emissions ->
             exists f : Q,
               Dict.get F mode = Some f
               /\ f = e + inject_Z (Dict.get_or KCAL_PER_KM mode 0%Z)
                          * food_emission_per_kcal diet
               /\ (Dict.get KCAL_PER_KM mode = None -> f == e)
               /\ 0 <= f)
  /\ (exists B : Dict.t float,
        Binary64.EMISSIONS_FACTORS (Binary64.food_emission_per_kcal diet)
        = ret B
        /\ Dict.keys B = Dict.keys embodied_emissions
        /\ forall (mode : string) (x : float),
             In (mode, x) B ->
             is_finite x = true /\ PrimFloat.leb 0%float x = true).
Proof.
  split; [reflexivity|]. split; [reflexivity|]. split.
  - exists (factor_table (food_emission_per_kcal diet)).
    split; [apply EMISSIONS_FACTORS_table|].
    split; [reflexivity|]. split; [reflexivity|].
    intros mode e Hin. eexists.
    split; [exact (factor_table_get _ mode e Hin)|].
    split; [reflexivity|]. split.
    + intros Hnone. unfold Dict.get_or. rewrite Hnone.
      change (inject_Z 0) with 0. ring.
    + pose proof (embodied_nonneg mode e Hin) as H1.
      pose proof (kcal_nonneg mode) as H2.
      pose proof (food_emission_per_kcal_pos diet) as H3.
      nra.
  - unfold Binary64.food_emission_per_kcal.
    destruct (diet =? "Average Western").
    + eexists. split; [vm_compute; reflexivity|].
      split; [reflexivity|].
      intros mode x H. table_cases H; split; vm_compute; reflexivity.
    + eexists. split; [vm_compute; reflexivity|].
      split; [reflexivity|].
      intros mode x H. table_cases H; split; vm_compute; reflexivity.
Qed.

(** * The evaluation *)

Lemma mem_car_modes (mode : string) :
  mem mode car_modes = true <-> mode = "Small Car" \/ mode = "Electric Car".
Proof.
  unfold mem, car_modes. simpl. rewrite !orb_true_iff, !String.eqb_eq.
  intuition discriminate.
Qed.

Lemma divisor_shared (vt : string) (p : Z) (mode : string) :
  mode = vt -> mode = "Small Car" \/ mode = "Electric Car" ->
  divisor vt p mode = p.
Proof.
  intros -> Hcar. unfold divisor. rewrite String.eqb_refl.
  apply mem_car_modes in Hcar. now rewrite Hcar.
Qed.

Lemma divisor_alone (vt : string) (p : Z) (mode : string) :
  ~ (mode = vt /\ (mode = "Small Car" \/ mode = "Electric Car")) ->
  divisor vt p mode = 1%Z.
Proof.
  intros Hnot. unfold divisor.
  destruct (String.eqb_spec mode vt) as [Heq|Hne]; [|reflexivity].
  destruct (mem mode car_modes) eqn:Hcar; [|reflexivity].
  exfalso. apply Hnot. split; [assumption|]. now apply mem_car_modes.
Qed.

Lemma Qdiv_one (x : Q) : x / inject_Z 1 == x.
Proof. change (inject_Z 1) with 1. field. Qed.

(** The entry of a mode in the two dicts of a run. *)
Lemma entries_of_mode (c : Q) (vt : string) (p : Z) (d : Q) (m : Z)
  (mode : string) :
  In mode (Dict.keys embodied_emissions) ->
  exists f : Q,
    In (mode, f) (factor_table c)
    /\ Dict.get (factor_table c) mode = Some f
    /\ Dict.get (value_table (factor_table c) vt p d m) mode
       = Some (f / inject_Z (divisor vt p mode) * d * inject_Z m)
    /\ In (mode, f / inject_Z (divisor vt p mode) * d * inject_Z m)
         (sorted_by_value (value_table (factor_table c) vt p d m)).
Proof.
  intros Hin. destruct (factor_table_total c mode Hin) as (e & He & Hf).
  eexists. split; [exact Hf|]. split.
  - apply get_in; [apply factor_table_nodup|exact Hf].
  - assert (Hv : In (mode, (e + inject_Z (Dict.get_or KCAL_PER_KM mode 0%Z) * c)
                            / inject_Z (divisor vt p mode) * d * inject_Z m)
                   (value_table (factor_table c) vt p d m)).
    { apply value_table_in. eexists. split; [exact Hf|reflexivity]. }
    split.
    + apply get_in; [apply value_table_nodup|exact Hv].
    + apply sorted_by_value_in. exact Hv.
Qed.

(** C1: for every valid input the comparison data holds one value per
    mode, computed from the factor table that lines 59-62 build for the
    diet; the value of a mode is its factor divided by the passenger
    count, times distance and multiplier, when the mode is the selected
    one and is "Small Car" or "Electric Car", and its factor times
    distance and multiplier in every other case, so that the other car's
    entry is never divided. *)
Theorem all_modes_values (d : Q) (vt : string) (slider : Z)
  (view diet : string) :
  valid_input d vt slider ->
  exists r : Result,
    evaluate d vt slider view diet = ret r
    /\ EMISSIONS_FACTORS (food_emission_per_kcal diet) = ret (factors r)
    /\ Dict.keys (emissions_data r) = vehicle_types
    /\ forall mode : string,
         In mode vehicle_types ->
         exists e f v : Q,
           In (mode, e) embodied_emissions
           /\ f = e + inject_Z (Dict.get_or KCAL_PER_KM mode 0%Z)
                      * food_emission_per_kcal diet
           /\ Dict.get (factors r) mode = Some f
           /\ Dict.get (emissions_data r) mode = Some v
           /\ In (mode, v) (sorted_modes r)
           /\ (mode = vt -> mode = "Small Car" \/ mode = "Electric Car" ->
               v == f / inject_Z slider * d * inject_Z (multiplier_of view))
           /\ (~ (mode = vt /\ (mode = "Small Car" \/ mode = "Electric Car")) ->
               v == f * d * inject_Z (multiplier_of view)).
Proof.
  intros Hvalid. pose proof (valid_input_runs _ _ _ Hvalid) as Hruns.
  destruct (evaluate_runs d vt slider view diet Hruns) as (f0 & _ & Hev).
  cbv zeta in Hev. eexists. split; [exact Hev|]. project.
  split; [apply EMISSIONS_FACTORS_table|].
  split; [rewrite value_table_keys; reflexivity|].
  intros mode Hmode.
  destruct (entries_of_mode (food_emission_per_kcal diet) vt
              (passengers_of vt slider) d (multiplier_of view) mode Hmode)
    as (f & Hf & Hget & Hval & Hsorted).
  destruct (factor_table_in _ _ _ Hf) as (e & He & Hfe).
  exists e, f. eexists. split; [exact He|]. split; [exact Hfe|].
  split; [exact Hget|]. split; [exact Hval|].
  split; [exact Hsorted|]. split.
  - intros Heq Hcar. rewrite (divisor_shared _ _ _ Heq Hcar).
    subst mode. apply mem_car_modes in Hcar.
    rewrite (passengers_of_car _ _ Hcar). reflexivity.
  - intros Hnot. rewrite (divisor_alone _ _ _ Hnot).
    now rewrite Qdiv_one.
Qed.

Lemma all_modes_values_witness :
  exists r : Result,
    evaluate 5 "Small Car" 4 "Per Trip" "Average Western" = ret r
    /\ EMISSIONS_FACTORS (food_emission_per_kcal "Average Western")
       = ret (factors r)
    /\ Dict.keys (emissions_data r) = vehicle_types
    /\ forall mode : string,
         In mode vehicle_types ->
         exists e f v : Q,
           In (mode, e) embodied_emissions
           /\ f = e + inject_Z (Dict.get_or KCAL_PER_KM mode 0%Z)
                      * food_emission_per_kcal "Average Western"
           /\ Dict.get (factors r) mode = Some f
           /\ Dict.get (emissions_data r) mode = Some v
           /\ In (mode, v) (sorted_modes r)
           /\ (mode = "Small Car" ->
               mode = "Small Car" \/ mode = "Electric Car" ->
               v == f / inject_Z 4 * 5 * inject_Z (multiplier_of "Per Trip"))
           /\ (~ (mode = "Small Car"
                  /\ (mode = "Small Car" \/ mode = "Electric Car")) ->
               v == f * 5 * inject_Z (multiplier_of "Per Trip")).
Proof.
  apply (all_modes_values 5 "Small Car" 4 "Per Trip" "Average Western").
  split; [discriminate|]. split; [simpl; tauto|intros _; lia].
Defined.

(** C2: for every diet, distance, passenger count and view with which the
    script runs, both baseline figures (lines 77 and 92) are the constant
    0.44 times the distance times the multiplier; they are the same for
    every diet, and they equal the "Small Car" factor times distance times
    multiplier, "Small Car" having no entry in the calorie table. *)
Theorem baseline_total (d : Q) (vt : string) (slider : Z)
  (view diet : string) :
  runs vt slider ->
  exists r : Result,
    evaluate d vt slider view diet = ret r
    /\ solo_car_emissions r = 0.44 * d * inject_Z (multiplier_of view)
    /\ solo_baseline r = 0.44 * d * inject_Z (multiplier_of view)
    /\ Dict.get embodied_emissions "Small Car" = Some 0.44
    /\ Dict.get KCAL_PER_KM "Small Car" = None
    /\ (exists f : Q,
          Dict.get (factors r) "Small Car" = Some f
          /\ f == 0.44
          /\ solo_baseline r == f * d * inject_Z (multiplier_of view))
    /\ forall diet' : string,
         exists r' : Result,
           evaluate d vt slider view diet' = ret r'
           /\ solo_car_emissions r' = solo_car_emissions r
           /\ solo_baseline r' = solo_baseline r.
Proof.
  intros Hruns.
  destruct (evaluate_runs d vt slider view diet Hruns) as (f0 & _ & Hev).
  cbv zeta in Hev. eexists. split; [exact Hev|]. project.
  split; [reflexivity|]. split; [reflexivity|].
  split; [reflexivity|]. split; [reflexivity|]. split.
  - eexists. split; [reflexivity|].
    assert (H : 0.44 + inject_Z 0 * food_emission_per_kcal diet == 0.44)
      by (change (inject_Z 0) with 0; ring).
    split; [exact H|]. now rewrite H.
  - intros diet'.
    destruct (evaluate_runs d vt slider view diet' Hruns) as (f1 & _ & Hev').
    cbv zeta in Hev'. eexists. split; [exact Hev'|]. project.
    split; reflexivity.
Qed.

Lemma baseline_total_witness :
  exists r : Result,
    evaluate 5 "E-Bike" 1 "Per Year" "Average Western" = ret r
    /\ solo_car_emissions r = 0.44 * 5 * inject_Z (multiplier_of "Per Year")
    /\ solo_baseline r = 0.44 * 5 * inject_Z (multiplier_of "Per Year")
    /\ Dict.get embodied_emissions "Small Car" = Some 0.44
    /\ Dict.get KCAL_PER_KM "Small Car" = None
    /\ (exists f : Q,
          Dict.get (factors r) "Small Car" = Some f
          /\ f == 0.44
          /\ solo_baseline r == f * 5 * inject_Z (multiplier_of "Per Year"))
    /\ forall diet' : string,
         exists r' : Result,
           evaluate 5 "E-Bike" 1 "Per Year" diet' = ret r'
           /\ solo_car_emissions r' = solo_car_emissions r
           /\ solo_baseline r' = solo_baseline r.
Proof.
  apply (baseline_total 5 "E-Bike" 1 "Per Year" "Average Western").
  split; [simpl; tauto|discriminate].
Defined.



(** An electric car shared by two over 10 km: 0.12 kg per km and person,
    1.2 kg for the trip, and 2.4 kg for the vehicle. *)
Example electric_car_shared_by_two :
  exists r : Result,
    evaluate 10 "Electric Car" 2 "Per Trip" "Average Western" = ret r
    /\ emission_factor r == 0.12
    /\ total_emissions r == 1.2
    /\ scaled 1 (Some 2.4) (vehicle_total_caption r)
    /\ emissions_saved_vs_solo r == 3.2.
Proof.
  eexists. split; [reflexivity|].
  repeat (split; [reflexivity|]). reflexivity.
Qed.

(** C9: for every valid input the entry of the selected mode in the
    comparison data is the total shown in the summary, the divisor of that
    entry being the resolved passenger count. *)
Theorem selected_entry_is_total (d : Q) (vt : string) (slider : Z)
  (view diet : string) :
  valid_input d vt slider ->
  exists r : Result,
    evaluate d vt slider view diet = ret r
    /\ divisor vt (passengers r) vt = passengers r
    /\ Dict.get (emissions_data r) vt = Some (total_emissions r)
    /\ In (vt, total_emissions r) (sorted_modes r).
Proof.
  intros Hvalid. pose proof (valid_input_runs _ _ _ Hvalid) as Hruns.
  destruct (evaluate_runs d vt slider view diet Hruns) as (f & Hf & Hev).
  cbv zeta in Hev. eexists. split; [exact Hev|]. project.
  split; [apply divisor_selected|].
  assert (Hv : In (vt, f / inject_Z (passengers_of vt slider) * d
                       * inject_Z (multiplier_of view))
                 (value_table (factor_table (food_emission_per_kcal diet)) vt
                    (passengers_of vt slider) d (multiplier_of view))).
  { apply value_table_in. exists f. split; [exact Hf|].
    now rewrite divisor_selected. }
  split.
  - apply get_in; [apply value_table_nodup|exact Hv].
  - apply sorted_by_value_in. exact Hv.
Qed.

Lemma selected_entry_is_total_witness :
  exists r : Result,
    evaluate 10 "Electric Car" 2 "Per Trip" "Average Western" = ret r
    /\ divisor "Electric Car" (passengers r) "Electric Car" = passengers r
    /\ Dict.get (emissions_data r) "Electric Car" = Some (total_emissions r)
    /\ In ("Electric Car", total_emissions r) (sorted_modes r).
Proof.
  apply (selected_entry_is_total 10 "Electric Car" 2 "Per Trip"
           "Average Western").
  split; [discriminate|]. split; [simpl; tauto|intros _; lia].
Defined.

(** * Views *)

(** C6: for any mode, distance, passenger count and diet with which the
    script runs, the "Per Year" view shows 520 times the "Per Trip" total,
    520 times the undivided vehicle total (the caption being shown in both
    views or in neither) and 520 times each baseline figure. *)
Theorem per_year_scaling (d : Q) (vt : string) (slider : Z) (diet : string) :
  runs vt slider ->
  exists rt ry : Result,
    evaluate d vt slider "Per Trip" diet = ret rt
    /\ evaluate d vt slider "Per Year" diet = ret ry
    /\ multiplier rt = 1%Z
    /\ multiplier ry = 520%Z
    /\ total_emissions ry == total_emissions rt * 520
    /\ base_factor ry * d * inject_Z (multiplier ry)
       == base_factor rt * d * inject_Z (multiplier rt) * 520
    /\ scaled 520 (vehicle_total_caption rt) (vehicle_total_caption ry)
    /\ solo_car_emissions ry == solo_car_emissions rt * 520
    /\ solo_baseline ry == solo_baseline rt * 520.
Proof.
  intros Hruns.
  destruct (evaluate_runs d vt slider "Per Trip" diet Hruns)
    as (f & Hf & Hevt).
  destruct (evaluate_runs d vt slider "Per Year" diet Hruns)
    as (f' & Hf' & Hevy).
  assert (Hff : f' = f).
  { pose proof (get_in _ _ _ (factor_table_nodup _) Hf) as H1.
    pose proof (get_in _ _ _ (factor_table_nodup _) Hf') as H2.
    congruence. }
  subst f'. cbv zeta in Hevt, Hevy.
  eexists. eexists. split; [exact Hevt|]. split; [exact Hevy|]. project.
  change (multiplier_of "Per Trip") with 1%Z.
  change (multiplier_of "Per Year") with 520%Z.
  change (inject_Z 1) with 1. change (inject_Z 520) with 520.
  split; [reflexivity|]. split; [reflexivity|].
  split; [ring|]. split; [ring|]. split.
  - destruct ((1 <? passengers_of vt slider)%Z && mem vt car_modes);
      simpl; [ring|exact I].
  - split; ring.
Qed.

Lemma per_year_scaling_witness :
  exists rt ry : Result,
    evaluate 5 "Small Car" 3 "Per Trip" "Average Western" = ret rt
    /\ evaluate 5 "Small Car" 3 "Per Year" "Average Western" = ret ry
    /\ multiplier rt = 1%Z
    /\ multiplier ry = 520%Z
    /\ total_emissions ry == total_emissions rt * 520
    /\ base_factor ry * 5 * inject_Z (multiplier ry)
       == base_factor rt * 5 * inject_Z (multiplier rt) * 520
    /\ scaled 520 (vehicle_total_caption rt) (vehicle_total_caption ry)
    /\ solo_car_emissions ry == solo_car_emissions rt * 520
    /\ solo_baseline ry == solo_baseline rt * 520.
Proof.
  apply (per_year_scaling 5 "Small Car" 3 "Average Western").
  split; [simpl; tauto|discriminate].
Defined.

(** * Signs *)

Lemma inject_Z_pos (n : Z) : (1 <= n)%Z -> 0 < inject_Z n.
Proof.
  intros Hn. change 0 with (inject_Z 0). rewrite <- Zlt_Qlt. lia.
Qed.

Lemma Qdiv_nonneg (x : Q) (n : Z) :
  0 <= x -> (1 <= n)%Z -> 0 <= x / inject_Z n.
Proof.
  intros Hx Hn. unfold Qdiv. apply Qmult_le_0_compat; [exact Hx|].
  apply Qinv_le_0_compat. apply Qlt_le_weak. now apply inject_Z_pos.
Qed.

Lemma divisor_ge_1 (vt : string) (p : Z) (mode : string) :
  (1 <= p)%Z -> (1 <= divisor vt p mode)%Z.
Proof.
  intros Hp. unfold divisor.
  destruct ((mode =? vt) && mem mode car_modes); lia.
Qed.

Lemma passengers_of_ge_1 (vt : string) (slider : Z) :
  (1 <= slider)%Z -> (1 <= passengers_of vt slider)%Z.
Proof.
  intros Hs. unfold passengers_of. destruct (mem vt car_modes); lia.
Qed.

Lemma value_nonneg (f : Q) (n : Z) (d : Q) (view : string) :
  0 <= f -> (1 <= n)%Z -> 0 <= d ->
  0 <= f / inject_Z n * d * inject_Z (multiplier_of view).
Proof.
  intros Hf Hn Hd.
  pose proof (Qdiv_nonneg f n Hf Hn) as H1.
  pose proof (multiplier_of_pos view) as H2.
  apply Qmult_le_0_compat; [|now apply Qlt_le_weak].
  now apply Qmult_le_0_compat.
Qed.

(** C10: for every input with a distance of at least 0, a passenger count
    of at least 1 and one of the eight modes, every factor of the table,
    the per-person rate, the total, the undivided vehicle total, both
    baseline figures and the value of every mode in the comparison data
    are at least 0. *)
Theorem all_quantities_nonneg (d : Q) (vt : string) (slider : Z)
  (view diet : string) :
  0 <= d -> (1 <= slider)%Z -> In vt vehicle_types ->
  exists r : Result,
    evaluate d vt slider view diet = ret r
    /\ (forall (mode : string) (f : Q), In (mode, f) (factors r) -> 0 <= f)
    /\ 0 <= emission_factor r
    /\ 0 <= total_emissions r
    /\ 0 <= base_factor r * d * inject_Z (multiplier r)
    /\ (forall v : Q, vehicle_total_caption r = Some v -> 0 <= v)
    /\ 0 <= solo_car_emissions r
    /\ 0 <= solo_baseline r
    /\ (forall (mode : string) (v : Q),
          In (mode, v) (emissions_data r) -> 0 <= v)
    /\ (forall (mode : string) (v : Q),
          In (mode, v) (sorted_modes r) -> 0 <= v).
Proof.
  intros Hd Hs Hin.
  pose proof (passengers_of_ge_1 vt slider Hs) as Hp.
  assert (Hruns : runs vt slider) by (split; [exact Hin|lia]).
  destruct (evaluate_runs d vt slider view diet Hruns) as (f & Hf & Hev).
  cbv zeta in Hev. eexists. split; [exact Hev|]. project.
  pose proof (Qlt_le_weak _ _ (food_emission_per_kcal_pos diet)) as Hc.
  pose proof (factor_nonneg _ _ _ Hc Hf) as Hf0.
  pose proof (multiplier_of_pos view) as Hm.
  assert (Hfd : 0 <= f * d * inject_Z (multiplier_of view)).
  { apply Qmult_le_0_compat; [|now apply Qlt_le_weak].
    now apply Qmult_le_0_compat. }
  assert (Hdata : forall (mode : string) (v : Q),
             In (mode, v)
               (value_table (factor_table (food_emission_per_kcal diet)) vt
                  (passengers_of vt slider) d (multiplier_of view)) ->
             0 <= v).
  { intros mode v Hv. apply value_table_in in Hv.
    destruct Hv as (g & Hg & ->).
    apply value_nonneg; [|now apply divisor_ge_1|exact Hd].
    exact (factor_nonneg _ _ _ Hc Hg). }
  split; [intros mode g Hg; exact (factor_nonneg _ _ _ Hc Hg)|].
  split; [now apply Qdiv_nonneg|].
  split; [now apply value_nonneg|].
  split; [exact Hfd|]. split.
  { intros v.
    destruct ((1 <? passengers_of vt slider)%Z && mem vt car_modes);
      [intros [= <-]; exact Hfd|discriminate]. }
  assert (Hsolo : 0 <= 0.44 * d * inject_Z (multiplier_of view)).
  { apply Qmult_le_0_compat; [|now apply Qlt_le_weak].
    apply Qmult_le_0_compat; [discriminate|exact Hd]. }
  split; [exact Hsolo|]. split; [exact Hsolo|].
  split; [exact Hdata|].
  intros mode v Hv. apply (Hdata mode).
  exact (proj1 (sorted_by_value_in _ _) Hv).
Qed.

Lemma all_quantities_nonneg_witness :
  exists r : Result,
    evaluate 5 "Small Car" 7 "Per Year" "Low-carbon / Plant-based" = ret r
    /\ (forall (mode : string) (f : Q), In (mode, f) (factors r) -> 0 <= f)
    /\ 0 <= emission_factor r
    /\ 0 <= total_emissions r
    /\ 0 <= base_factor r * 5 * inject_Z (multiplier r)
    /\ (forall v : Q, vehicle_total_caption r = Some v -> 0 <= v)
    /\ 0 <= solo_car_emissions r
    /\ 0 <= solo_baseline r
    /\ (forall (mode : string) (v : Q),
          In (mode, v) (emissions_data r) -> 0 <= v)
    /\ (forall (mode : string) (v : Q),
          In (mode, v) (sorted_modes r) -> 0 <= v).
Proof.
  apply (all_quantities_nonneg 5 "Small Car" 7 "Per Year"
           "Low-carbon / Plant-based");
    [discriminate|lia|simpl; tauto].
Defined.

(** * The order of the comparison data *)

Lemma StronglySorted_nth {A : Type} (R : A -> A -> Prop) (l : list A) :
  StronglySorted R l ->
  forall (i j : nat) (a b : A),
    (i < j)%nat -> nth_error l i = Some a -> nth_error l j = Some b ->
    R a b.
Proof.
  induction 1 as [|x l Hl IH Hx]; intros i j a b Hij Hi Hj.
  - destruct i; discriminate.
  - destruct j as [|j]; [lia|]. simpl in Hj. destruct i as [|i].
    + simpl in Hi. injection Hi as <-.
      rewrite Forall_forall in Hx. apply Hx.
      now apply nth_error_In with j.
    + simpl in Hi. apply (IH i j); [lia|assumption|assumption].
Qed.

(** C8: for every input with which the script runs, the sorted comparison
    data is a rearrangement of the one value per mode, ascending in the
    value, so that no entry is larger than any later one and in particular
    than the next one; two entries of equal value stand in the order of
    their modes in the embodied-emissions table. *)
Theorem all_modes_sorted (d : Q) (vt : string) (slider : Z)
  (view diet : string) :
  runs vt slider ->
  exists r : Result,
    evaluate d vt slider view diet = ret r
    /\ Dict.keys (emissions_data r) = Dict.keys embodied_emissions
    /\ Permutation (sorted_modes r) (Dict.items (emissions_data r))
    /\ modes r = map fst (sorted_modes r)
    /\ emissions r = map snd (sorted_modes r)
    /\ StronglySorted value_le (sorted_modes r)
    /\ (forall (i : nat) (a b : string * Q),
          nth_error (sorted_modes r) i = Some a ->
          nth_error (sorted_modes r) (S i) = Some b ->
          snd a <= snd b)
    /\ (forall x y : string * Q,
          In x (sorted_modes r) -> In y (sorted_modes r) ->
          snd x == snd y ->
          precedes (fst x) (fst y) (Dict.keys embodied_emissions) ->
          precedes x y (sorted_modes r)).
Proof.
  intros Hruns.
  destruct (evaluate_runs d vt slider view diet Hruns) as (f & _ & Hev).
  cbv zeta in Hev. eexists. split; [exact Hev|]. project.
  set (data := value_table (factor_table (food_emission_per_kcal diet)) vt
                 (passengers_of vt slider) d (multiplier_of view)).
  assert (Hkeys : Dict.keys data = Dict.keys embodied_emissions).
  { unfold data. rewrite value_table_keys. apply factor_table_keys. }
  split; [exact Hkeys|].
  split; [apply sorted_by_value_perm|].
  split; [reflexivity|]. split; [reflexivity|].
  split; [apply sorted_by_value_sorted|]. split.
  - intros i a b Ha Hb.
    apply (StronglySorted_nth value_le _ (sorted_by_value_sorted data)
             i (S i) a b); [lia|assumption|assumption].
  - intros x y Hx Hy Hxy Hprec.
    apply sorted_by_value_stable; [|rewrite Hxy; apply Qle_refl].
    apply precedes_of_keys.
    + rewrite Hkeys. exact embodied_keys_nodup.
    + exact (proj1 (sorted_by_value_in _ _) Hx).
    + exact (proj1 (sorted_by_value_in _ _) Hy).
    + rewrite Hkeys. exact Hprec.
Qed.

Lemma all_modes_sorted_witness :
  exists r : Result,
    evaluate 0 "Standard Bike" 1 "Per Trip" "Average Western" = ret r
    /\ Dict.keys (emissions_data r) = Dict.keys embodied_emissions
    /\ Permutation (sorted_modes r) (Dict.items (emissions_data r))
    /\ modes r = map fst (sorted_modes r)
    /\ emissions r = map snd (sorted_modes r)
    /\ StronglySorted value_le (sorted_modes r)
    /\ (forall (i : nat) (a b : string * Q),
          nth_error (sorted_modes r) i = Some a ->
          nth_error (sorted_modes r) (S i) = Some b ->
          snd a <= snd b)
    /\ (forall x y : string * Q,
          In x (sorted_modes r) -> In y (sorted_modes r) ->
          snd x == snd y ->
          precedes (fst x) (fst y) (Dict.keys embodied_emissions) ->
          precedes x y (sorted_modes r)).
Proof.
  apply (all_modes_sorted 0 "Standard Bike" 1 "Per Trip" "Average Western").
  split; [simpl; tauto|discriminate].
Defined.

(** At distance 0 every value is 0 and the sorted data keeps the order of
    the table. *)
Example sorted_order_at_zero_distance :
  exists r : Result,
    evaluate 0 "Standard Bike" 1 "Per Trip" "Average Western" = ret r
    /\ modes r = Dict.keys embodied_emissions.
Proof. eexists. split; reflexivity. Qed.

(** The order for a 5 km trip by a car shared by two. *)
Example sorted_order_shared_car :
  exists r : Result,
    evaluate 5 "Small Car" 2 "Per Trip" "Average Western" = ret r
    /\ modes r
       = [ "Local Electric Train"; "E-Bike"; "Lightweight Bike";
           "Bus (per passenger)"; "Standard Bike";
           "Walking (including food fuel)"; "Small Car"; "Electric Car" ].
Proof. eexists. split; reflexivity. Qed.

(** * Diets *)

(** C7, as stated, fails: at distance 0 the value of walking is 0 under
    both diets. *)
Lemma diet_change_at_zero_distance :
  valid_input 0 "Walking (including food fuel)" 1
  /\ In "Walking (including food fuel)" (Dict.keys KCAL_PER_KM)
  /\ exists (rw rl : Result) (vw vl : Q),
       evaluate 0 "Walking (including food fuel)" 1 "Per Trip"
         "Average Western" = ret rw
       /\ evaluate 0 "Walking (including food fuel)" 1 "Per Trip"
            "Low-carbon / Plant-based" = ret rl
       /\ Dict.get (emissions_data rw) "Walking (including food fuel)"
          = Some vw
       /\ Dict.get (emissions_data rl) "Walking (including food fuel)"
          = Some vl
       /\ vw == 0 /\ vl == 0 /\ ~ vl < vw.
Proof.
  split.
  { split; [discriminate|]. split; [simpl; tauto|discriminate]. }
  split; [simpl; tauto|].
  do 4 eexists.
  split; [reflexivity|]. split; [reflexivity|].
  split; [reflexivity|]. split; [reflexivity|].
  split; [reflexivity|]. split; [reflexivity|].
  vm_compute. discriminate.
Qed.

Lemma value_le_mono (f g : Q) (n : Z) (d : Q) (view : string) :
  f <= g -> (1 <= n)%Z -> 0 <= d ->
  f / inject_Z n * d * inject_Z (multiplier_of view)
  <= g / inject_Z n * d * inject_Z (multiplier_of view).
Proof.
  intros Hfg Hn Hd.
  apply Qmult_le_compat_r; [|apply Qlt_le_weak, multiplier_of_pos].
  apply Qmult_le_compat_r; [|exact Hd].
  unfold Qdiv. apply Qmult_le_compat_r; [exact Hfg|].
  apply Qinv_le_0_compat, Qlt_le_weak. now apply inject_Z_pos.
Qed.

Lemma value_eq (f g : Q) (n : Z) (d : Q) (m : Z) :
  f == g ->
  f / inject_Z n * d * inject_Z m == g / inject_Z n * d * inject_Z m.
Proof. intros ->. reflexivity. Qed.

Lemma non_food_modes (mode : string) :
  In mode
    ["Small Car"; "Electric Car"; "Bus (per passenger)";
     "Local Electric Train"] ->
  ~ In mode (Dict.keys KCAL_PER_KM).
Proof.
  intros H Hk. simpl in H, Hk.
  repeat (destruct H as [<-|H]; [intuition discriminate|]). exact H.
Qed.

(** C7, amended: for every valid input, changing the diet from "Average
    Western" to "Low-carbon / Plant-based" strictly decreases the factor of
    every mode of the calorie table, in exact arithmetic and in binary64,
    and never increases the value of a mode; at distance 0 the value is 0
    under both diets; the factors and the values of the modes outside the
    calorie table, which are "Small Car", "Electric Car", "Bus (per
    passenger)" and "Local Electric Train", do not change. *)
Theorem diet_change (d : Q) (vt : string) (slider : Z) (view : string) :
  valid_input d vt slider ->
  exists rw rl : Result,
    evaluate d vt slider view "Average Western" = ret rw
    /\ evaluate d vt slider view "Low-carbon / Plant-based" = ret rl
    /\ (forall mode : string,
          In mode vehicle_types ->
          exists fw fl vw vl : Q,
            Dict.get (factors rw) mode = Some fw
            /\ Dict.get (factors rl) mode = Some fl
            /\ (In mode (Dict.keys KCAL_PER_KM) -> fl < fw)
            /\ (~ In mode (Dict.keys KCAL_PER_KM) -> fl == fw)
            /\ Dict.get (emissions_data rw) mode = Some vw
            /\ Dict.get (emissions_data rl) mode = Some vl
            /\ vl <= vw
            /\ (d == 0 -> vl == 0 /\ vw == 0)
            /\ (~ In mode (Dict.keys KCAL_PER_KM) -> vl == vw)
            /\ (In mode
                  ["Small Car"; "Electric Car"; "Bus (per passenger)";
                   "Local Electric Train"] ->
                vl == vw))
    /\ exists Bw Bl : Dict.t float,
         Binary64.EMISSIONS_FACTORS
           (Binary64.food_emission_per_kcal "Average Western") = ret Bw
         /\ Binary64.EMISSIONS_FACTORS
              (Binary64.food_emission_per_kcal "Low-carbon / Plant-based")
            = ret Bl
         /\ forall mode : string,
              In mode (Dict.keys KCAL_PER_KM) ->
              exists bw bl : float,
                Dict.get Bw mode = Some bw
                /\ Dict.get Bl mode = Some bl
                /\ PrimFloat.ltb bl bw = true.
Proof.
  intros Hvalid. pose proof (valid_input_runs _ _ _ Hvalid) as Hruns.
  destruct Hvalid as (Hd & Hin & Hrange).
  assert (Hp : (1 <= passengers_of vt slider)%Z).
  { unfold passengers_of. destruct (mem vt car_modes); [|lia].
    specialize (Hrange eq_refl). lia. }
  destruct (evaluate_runs d vt slider view "Average Western" Hruns)
    as (fw & _ & Hevw).
  destruct (evaluate_runs d vt slider view "Low-carbon / Plant-based" Hruns)
    as (fl & _ & Hevl).
  cbv zeta in Hevw, Hevl.
  eexists. eexists. split; [exact Hevw|]. split; [exact Hevl|]. project.
  change (food_emission_per_kcal "Average Western") with 0.0025.
  change (food_emission_per_kcal "Low-carbon / Plant-based") with 0.0012.
  split.
  - intros mode Hmode.
    destruct (factor_table_total 0.0025 mode Hmode) as (e & He & Hw).
    destruct (factor_table_total 0.0012 mode Hmode) as (e' & He' & Hl).
    assert (Hee : e' = e).
    { pose proof (get_in _ _ _ embodied_keys_nodup He) as H1.
      pose proof (get_in _ _ _ embodied_keys_nodup He') as H2.
      congruence. }
    subst e'.
    set (k := inject_Z (Dict.get_or KCAL_PER_KM mode 0%Z)) in *.
    set (p := passengers_of vt slider) in *.
    set (m := multiplier_of view) in *.
    pose proof (divisor_ge_1 vt p mode Hp) as Hdiv.
    pose proof (kcal_nonneg mode) as Hk. fold k in Hk.
    exists (e + k * 0.0025), (e + k * 0.0012).
    exists ((e + k * 0.0025) / inject_Z (divisor vt p mode) * d * inject_Z m).
    exists ((e + k * 0.0012) / inject_Z (divisor vt p mode) * d * inject_Z m).
    split; [apply get_in; [apply factor_table_nodup|exact Hw]|].
    split; [apply get_in; [apply factor_table_nodup|exact Hl]|].
    split.
    { intros Hfood. apply kcal_pos in Hfood. fold k in Hfood. lra. }
    split.
    { intros Hnot. unfold k. rewrite (kcal_absent mode Hnot). ring. }
    split.
    { apply get_in; [apply value_table_nodup|].
      apply value_table_in. eexists. split; [exact Hw|reflexivity]. }
    split.
    { apply get_in; [apply value_table_nodup|].
      apply value_table_in. eexists. split; [exact Hl|reflexivity]. }
    split; [apply value_le_mono; [lra|exact Hdiv|exact Hd]|].
    split.
    { intros Hzero. rewrite Hzero. split; ring. }
    assert (Hnon : ~ In mode (Dict.keys KCAL_PER_KM) ->
                   (e + k * 0.0012) / inject_Z (divisor vt p mode) * d
                   * inject_Z m
                   == (e + k * 0.0025) / inject_Z (divisor vt p mode) * d
                      * inject_Z m).
    { intros Hnot. apply value_eq. unfold k.
      rewrite (kcal_absent mode Hnot). ring. }
    split; [exact Hnon|].
    intros H. apply Hnon. now apply non_food_modes.
  - eexists. eexists.
    split; [vm_compute; reflexivity|]. split; [vm_compute; reflexivity|].
    intros mode Hmode. unfold Dict.keys, KCAL_PER_KM in Hmode.
    simpl in Hmode.
    repeat (destruct Hmode as [<-|Hmode];
            [eexists; eexists; split; [reflexivity|];
             split; [reflexivity|vm_compute; reflexivity]|]).
    destruct Hmode.
Qed.

Lemma diet_change_witness :
  exists rw rl : Result,
    evaluate 5 "Standard Bike" 1 "Per Trip" "Average Western" = ret rw
    /\ evaluate 5 "Standard Bike" 1 "Per Trip" "Low-carbon / Plant-based"
       = ret rl
    /\ (forall mode : string,
          In mode vehicle_types ->
          exists fw fl vw vl : Q,
            Dict.get (factors rw) mode = Some fw
            /\ Dict.get (factors rl) mode = Some fl
            /\ (In mode (Dict.keys KCAL_PER_KM) -> fl < fw)
            /\ (~ In mode (Dict.keys KCAL_PER_KM) -> fl == fw)
            /\ Dict.get (emissions_data rw) mode = Some vw
            /\ Dict.get (emissions_data rl) mode = Some vl
            /\ vl <= vw
            /\ (5 == 0 -> vl == 0 /\ vw == 0)
            /\ (~ In mode (Dict.keys KCAL_PER_KM) -> vl == vw)
            /\ (In mode
                  ["Small Car"; "Electric Car"; "Bus (per passenger)";
                   "Local Electric Train"] ->
                vl == vw))
    /\ exists Bw Bl : Dict.t float,
         Binary64.EMISSIONS_FACTORS
           (Binary64.food_emission_per_kcal "Average Western") = ret Bw
         /\ Binary64.EMISSIONS_FACTORS
              (Binary64.food_emission_per_kcal "Low-carbon / Plant-based")
            = ret Bl
         /\ forall mode : string,
              In mode (Dict.keys KCAL_PER_KM) ->
              exists bw bl : float,
                Dict.get Bw mode = Some bw
                /\ Dict.get Bl mode = Some bl
                /\ PrimFloat.ltb bl bw = true.
Proof.
  apply (diet_change 5 "Standard Bike" 1 "Per Trip").
  split; [discriminate|]. split; [simpl; tauto|discriminate].
Defined.

(** * Bounds *)

Lemma inject_Z_le (a b : Z) : (a <= b)%Z -> inject_Z a <= inject_Z b.
Proof. intros H. now rewrite <- Zle_Qle. Qed.

Lemma inject_Z_lt (a b : Z) : (a < b)%Z -> inject_Z a < inject_Z b.
Proof. intros H. now rewrite <- Zlt_Qlt. Qed.

(** More passengers, smaller share. *)
Lemma Qdiv_anti_le (f : Q) (a b : Z) :
  0 <= f -> (1 <= a <= b)%Z -> f / inject_Z b <= f / inject_Z a.
Proof.
  intros Hf [Ha Hab].
  pose proof (inject_Z_pos a Ha) as HA.
  pose proof (inject_Z_pos b ltac:(lia)) as HB.
  pose proof (inject_Z_le a b Hab) as HAB.
  apply Qle_shift_div_r; [exact HB|].
  setoid_replace (f / inject_Z a * inject_Z b)
    with (f * inject_Z b / inject_Z a) by (field; lra).
  apply Qle_shift_div_l; [exact HA|]. nra.
Qed.

Lemma Qdiv_anti_lt (f : Q) (a b : Z) :
  0 < f -> (1 <= a < b)%Z -> f / inject_Z b < f / inject_Z a.
Proof.
  intros Hf [Ha Hab].
  pose proof (inject_Z_pos a Ha) as HA.
  pose proof (inject_Z_pos b ltac:(lia)) as HB.
  pose proof (inject_Z_lt a b Hab) as HAB.
  apply Qlt_shift_div_r; [exact HB|].
  setoid_replace (f / inject_Z a * inject_Z b)
    with (f * inject_Z b / inject_Z a) by (field; lra).
  apply Qlt_shift_div_l; [exact HA|]. nra.
Qed.

Lemma Qdiv_le_self (f : Q) (n : Z) :
  0 <= f -> (1 <= n)%Z -> f / inject_Z n <= f.
Proof.
  intros Hf Hn. rewrite <- (Qdiv_one f) at 2.
  apply Qdiv_anti_le; [exact Hf|lia].
Qed.

Lemma scale_le (a b d : Q) (view : string) :
  a <= b -> 0 <= d ->
  a * d * inject_Z (multiplier_of view)
  <= b * d * inject_Z (multiplier_of view).
Proof.
  intros Hab Hd.
  apply Qmult_le_compat_r; [|apply Qlt_le_weak, multiplier_of_pos].
  now apply Qmult_le_compat_r.
Qed.

(** A closed comparison of two rationals. *)
Ltac closed_Q := vm_compute; first [reflexivity | discriminate].

(** Case analysis on a mode of the tables and on the diet. *)
Ltac factor_cases diet H :=
  apply factor_table_in in H;
  let e := fresh "e" in
  let He := fresh "He" in
  destruct H as (e & He & ->);
  unfold embodied_emissions in He;
  destruct (food_emission_per_kcal_cases diet) as [-> | ->];
  table_cases He.

(** No factor exceeds that of the small car. *)
Lemma factor_le_small_car (diet mode : string) (f : Q) :
  In (mode, f) (factor_table (food_emission_per_kcal diet)) -> f <= 0.44.
Proof. intros H. factor_cases diet H; closed_Q. Qed.

Lemma factor_other_le (diet mode : string) (f : Q) :
  In (mode, f) (factor_table (food_emission_per_kcal diet)) ->
  mode <> "Small Car" -> f <= 0.24.
Proof.
  intros H Hne. factor_cases diet H; try closed_Q; now destruct Hne.
Qed.

Lemma factor_small_car (c f : Q) :
  In ("Small Car", f) (factor_table c) -> f == 0.44.
Proof.
  intros H. pose proof (get_in _ _ _ (factor_table_nodup c) H) as Hget.
  change (Some (0.44 + inject_Z 0 * c) = Some f) in Hget.
  injection Hget as <-. change (inject_Z 0) with 0. ring.
Qed.

Lemma factor_electric_car (c f : Q) :
  In ("Electric Car", f) (factor_table c) -> f == 0.24.
Proof.
  intros H. pose proof (get_in _ _ _ (factor_table_nodup c) H) as Hget.
  change (Some (0.24 + inject_Z 0 * c) = Some f) in Hget.
  injection Hget as <-. change (inject_Z 0) with 0. ring.
Qed.

Lemma diet_factor_nonneg (diet mode : string) (f : Q) :
  In (mode, f) (factor_table (food_emission_per_kcal diet)) -> 0 <= f.
Proof.
  apply factor_nonneg. apply Qlt_le_weak, food_emission_per_kcal_pos.
Qed.

Lemma valid_divisor (d : Q) (vt : string) (slider : Z) (mode : string) :
  valid_input d vt slider ->
  (1 <= divisor vt (passengers_of vt slider) mode <= 5)%Z.
Proof.
  intros (_ & _ & Hrange). unfold divisor, passengers_of.
  destruct (mem vt car_modes).
  - specialize (Hrange eq_refl).
    destruct ((mode =? vt) && mem mode car_modes); lia.
  - destruct ((mode =? vt) && mem mode car_modes); lia.
Qed.

(** * Savings *)

(** X3: for every valid input no bar is longer than that of the small car
    driven alone: the total and the value of every mode are at most the
    baseline, which is 0.44 times distance and multiplier. *)
Theorem never_worse_than_solo_car (d : Q) (vt : string) (slider : Z)
  (view diet : string) :
  valid_input d vt slider ->
  exists r : Result,
    evaluate d vt slider view diet = ret r
    /\ solo_baseline r = 0.44 * d * inject_Z (multiplier_of view)
    /\ solo_car_emissions r = solo_baseline r
    /\ total_emissions r <= solo_car_emissions r
    /\ forall mode : string,
         In mode vehicle_types ->
         exists v : Q,
           Dict.get (emissions_data r) mode = Some v
           /\ v <= solo_baseline r.
Proof.
  intros Hvalid. pose proof (valid_input_runs _ _ _ Hvalid) as Hruns.
  pose proof Hvalid as (Hd & _ & _).
  destruct (evaluate_runs d vt slider view diet Hruns) as (f & Hf & Hev).
  cbv zeta in Hev. eexists. split; [exact Hev|]. project.
  assert (Hbound : forall (mode : string) (g : Q),
             In (mode, g) (factor_table (food_emission_per_kcal diet)) ->
             g / inject_Z (divisor vt (passengers_of vt slider) mode) * d
             * inject_Z (multiplier_of view)
             <= 0.44 * d * inject_Z (multiplier_of view)).
  { intros mode g Hg. apply scale_le; [|exact Hd].
    apply Qle_trans with g; [|exact (factor_le_small_car _ _ _ Hg)].
    apply Qdiv_le_self; [exact (diet_factor_nonneg _ _ _ Hg)|].
    apply (valid_divisor d vt slider mode Hvalid). }
  split; [reflexivity|]. split; [reflexivity|]. split.
  { rewrite <- (divisor_selected vt slider). exact (Hbound vt f Hf). }
  intros mode Hmode.
  destruct (entries_of_mode (food_emission_per_kcal diet) vt
              (passengers_of vt slider) d (multiplier_of view) mode Hmode)
    as (g & Hg & _ & Hval & _).
  eexists. split; [exact Hval|]. exact (Hbound mode g Hg).
Qed.

Lemma never_worse_than_solo_car_witness :
  exists r : Result,
    evaluate 8 "Electric Car" 1 "Per Year" "Average Western" = ret r
    /\ solo_baseline r = 0.44 * 8 * inject_Z (multiplier_of "Per Year")
    /\ solo_car_emissions r = solo_baseline r
    /\ total_emissions r <= solo_car_emissions r
    /\ forall mode : string,
         In mode vehicle_types ->
         exists v : Q,
           Dict.get (emissions_data r) mode = Some v
           /\ v <= solo_baseline r.
Proof.
  apply (never_worse_than_solo_car 8 "Electric Car" 1 "Per Year"
           "Average Western").
  split; [discriminate|]. split; [simpl; tauto|intros _; lia].
Defined.

Lemma gt_spec (x y : Q) : gt x y = true <-> y < x.
Proof.
  unfold gt. rewrite negb_true_iff. split.
  - apply Qle_bool_false.
  - intros H. destruct (Qle_bool x y) eqn:E; [|reflexivity].
    apply Qle_bool_iff in E. lra.
Qed.

Lemma gt_false (x y : Q) : gt x y = false <-> x <= y.
Proof.
  unfold gt. rewrite negb_false_iff. apply Qle_bool_iff.
Qed.

Lemma banner_of_zero (saved : Q) :
  saved == 0 -> exists more : Q, banner_of saved = Warning more /\ more == 0.
Proof.
  intros H. exists (Qabs saved). split.
  - unfold banner_of.
    assert (E : gt saved 0 = false) by (apply gt_false; lra).
    now rewrite E.
  - rewrite (Qabs_wd _ _ H). reflexivity.
Qed.

(** X4: for every valid input, at distance 0 the message under the
    summary is the warning and the amount it prints is 0; for the small
    car driven alone it is the warning as well; the green message is
    therefore shown only for a positive distance and a choice other than
    the small car driven alone, with the saving it was computed from. *)
Theorem banner_shown (d : Q) (vt : string) (slider : Z)
  (view diet : string) :
  valid_input d vt slider ->
  exists r : Result,
    evaluate d vt slider view diet = ret r
    /\ emissions_saved_vs_solo r = solo_car_emissions r - total_emissions r
    /\ (d == 0 ->
        exists more : Q,
          banner_of (emissions_saved_vs_solo r) = Warning more
          /\ more == 0)
    /\ (vt = "Small Car" /\ slider = 1%Z ->
        exists more : Q,
          banner_of (emissions_saved_vs_solo r) = Warning more)
    /\ (forall saved : Q,
          banner_of (emissions_saved_vs_solo r) = Success saved ->
          saved = emissions_saved_vs_solo r
          /\ 0 < d
          /\ ~ (vt = "Small Car" /\ slider = 1%Z)).
Proof.
  intros Hvalid. pose proof (valid_input_runs _ _ _ Hvalid) as Hruns.
  pose proof Hvalid as (Hd & Hin & Hrange).
  destruct (evaluate_runs d vt slider view diet Hruns) as (f & Hf & Hev).
  cbv zeta in Hev. eexists. split; [exact Hev|]. project.
  set (m := inject_Z (multiplier_of view)).
  set (saved := 0.44 * d * m - f / inject_Z (passengers_of vt slider) * d * m).
  assert (Hzero : d == 0 -> saved == 0).
  { intros H0. unfold saved. rewrite H0. ring. }
  assert (Hsolo : vt = "Small Car" /\ slider = 1%Z -> saved == 0).
  { intros [Hvt Hs]. unfold saved. revert Hf. rewrite Hvt, Hs. intros Hf.
    change (passengers_of "Small Car" 1) with 1%Z.
    rewrite (factor_small_car _ _ Hf), Qdiv_one. ring. }
  split; [reflexivity|]. split; [|split].
  - intros H0. apply banner_of_zero. now apply Hzero.
  - intros H. destruct (banner_of_zero saved (Hsolo H)) as (more & Hb & _).
    now exists more.
  - intros s Hs.
    assert (Hnz : ~ saved == 0).
    { intros H0. destruct (banner_of_zero saved H0) as (more & Hb & _).
      rewrite Hb in Hs. discriminate. }
    split.
    { unfold banner_of in Hs. destruct (gt saved 0); [|discriminate].
      now injection Hs as <-. }
    split.
    + destruct (Qlt_le_dec 0 d) as [Hpos|Hle]; [exact Hpos|].
      exfalso. apply Hnz, Hzero. now apply Qle_antisym.
    + intros H. now apply Hnz, Hsolo.
Qed.

Lemma banner_shown_witness :
  exists r : Result,
    evaluate 5 "Small Car" 1 "Per Trip" "Average Western" = ret r
    /\ emissions_saved_vs_solo r = solo_car_emissions r - total_emissions r
    /\ (5 == 0 ->
        exists more : Q,
          banner_of (emissions_saved_vs_solo r) = Warning more
          /\ more == 0)
    /\ ("Small Car" = "Small Car" /\ 1%Z = 1%Z ->
        exists more : Q,
          banner_of (emissions_saved_vs_solo r) = Warning more)
    /\ (forall saved : Q,
          banner_of (emissions_saved_vs_solo r) = Success saved ->
          saved = emissions_saved_vs_solo r
          /\ 0 < 5
          /\ ~ ("Small Car" = "Small Car" /\ 1%Z = 1%Z)).
Proof.
  apply (banner_shown 5 "Small Car" 1 "Per Trip" "Average Western").
  split; [discriminate|]. split; [simpl; tauto|intros _; lia].
Defined.

(** X5: the small car driven alone has the factor 0.44 as its rate per
    person and the baseline as its total, for every distance, view and
    diet; no caption with a vehicle total is shown. *)
Theorem small_car_alone (d : Q) (view diet : string) :
  exists r : Result,
    evaluate d "Small Car" 1 view diet = ret r
    /\ base_factor r == 0.44
    /\ emission_factor r == 0.44
    /\ solo_car_emissions r = 0.44 * d * inject_Z (multiplier_of view)
    /\ total_emissions r == solo_car_emissions r
    /\ vehicle_total_caption r = None.
Proof.
  assert (Hruns : runs "Small Car" 1) by (split; [simpl; tauto|discriminate]).
  destruct (evaluate_runs d "Small Car" 1 view diet Hruns) as (f & Hf & Hev).
  cbv zeta in Hev. eexists. split; [exact Hev|]. project.
  change (passengers_of "Small Car" 1) with 1%Z.
  pose proof (factor_small_car _ _ Hf) as Hsc.
  split; [exact Hsc|]. split; [now rewrite Qdiv_one|].
  split; [reflexivity|].
  split; [rewrite Qdiv_one, Hsc; reflexivity|reflexivity].
Qed.

(** X6: for a car, a slider position further right gives a strictly
    smaller rate per person and a total per person that is not larger,
    for every distance of at least 0. *)
Theorem more_passengers_less_each (d : Q) (vt : string) (p p' : Z)
  (view diet : string) :
  vt = "Small Car" \/ vt = "Electric Car" ->
  (1 <= p < p')%Z -> (p' <= 5)%Z -> 0 <= d ->
  exists r r' : Result,
    evaluate d vt p view diet = ret r
    /\ evaluate d vt p' view diet = ret r'
    /\ passengers r = p
    /\ passengers r' = p'
    /\ base_factor r' = base_factor r
    /\ emission_factor r' < emission_factor r
    /\ total_emissions r' <= total_emissions r.
Proof.
  intros Hcar Hp Hp5 Hd.
  assert (Hin : In vt (Dict.keys embodied_emissions))
    by (destruct Hcar as [-> | ->]; simpl; tauto).
  apply mem_car_modes in Hcar.
  assert (Hr : runs vt p)
    by (split; [exact Hin|rewrite passengers_of_car by exact Hcar; lia]).
  assert (Hr' : runs vt p')
    by (split; [exact Hin|rewrite passengers_of_car by exact Hcar; lia]).
  destruct (evaluate_runs d vt p view diet Hr) as (f & Hf & Hev).
  destruct (evaluate_runs d vt p' view diet Hr') as (f' & Hf' & Hev').
  assert (Hff : f' = f).
  { pose proof (get_in _ _ _ (factor_table_nodup _) Hf) as H1.
    pose proof (get_in _ _ _ (factor_table_nodup _) Hf') as H2.
    congruence. }
  subst f'. cbv zeta in Hev, Hev'.
  eexists. eexists. split; [exact Hev|]. split; [exact Hev'|]. project.
  rewrite !(passengers_of_car _ _ Hcar).
  assert (H0 : 0 < f).
  { apply mem_car_modes in Hcar. destruct Hcar as [-> | ->].
    - rewrite (factor_small_car _ _ Hf). reflexivity.
    - rewrite (factor_electric_car _ _ Hf). reflexivity. }
  pose proof (Qdiv_anti_lt f p p' H0 Hp) as Hlt.
  split; [reflexivity|]. split; [reflexivity|]. split; [reflexivity|].
  split; [exact Hlt|]. apply scale_le; [now apply Qlt_le_weak|exact Hd].
Qed.

Lemma more_passengers_less_each_witness :
  exists r r' : Result,
    evaluate 20 "Electric Car" 2 "Per Trip" "Average Western" = ret r
    /\ evaluate 20 "Electric Car" 3 "Per Trip" "Average Western" = ret r'
    /\ passengers r = 2%Z
    /\ passengers r' = 3%Z
    /\ base_factor r' = base_factor r
    /\ emission_factor r' < emission_factor r
    /\ total_emissions r' <= total_emissions r.
Proof.
  apply (more_passengers_less_each 20 "Electric Car" 2 3 "Per Trip"
           "Average Western");
    [now right|lia|lia|discriminate].
Defined.

(** * The plotted lists *)

Lemma sorted_by_value_length (l : list (string * Q)) :
  length (sorted_by_value l) = length l.
Proof. apply Permutation_length, sorted_by_value_perm. Qed.

Lemma sorted_modes_nodup (l : list (string * Q)) :
  NoDup (Dict.keys l) -> NoDup (map fst (sorted_by_value l)).
Proof.
  intros Hnd. apply (Permutation_NoDup (l := map fst l)); [|exact Hnd].
  apply Permutation_map. symmetry. apply sorted_by_value_perm.
Qed.

(** X8: whenever the script runs, the four plotted lists have eight
    entries each and stay aligned: at every position the emission is the
    value of the mode named there, and the saving is the baseline minus
    that emission and is the entry of that mode in [savings_vs_car]. *)
Theorem plotted_lists_aligned (d : Q) (vt : string) (slider : Z)
  (view diet : string) :
  runs vt slider ->
  exists r : Result,
    evaluate d vt slider view diet = ret r
    /\ length (modes r) = 8%nat
    /\ length (emissions r) = 8%nat
    /\ length (savings r) = 8%nat
    /\ length (colors r) = 8%nat
    /\ NoDup (modes r)
    /\ (forall (i : nat) (mode : string),
          nth_error (modes r) i = Some mode ->
          exists v : Q,
            nth_error (emissions r) i = Some v
            /\ Dict.get (emissions_data r) mode = Some v
            /\ nth_error (savings r) i = Some (solo_baseline r - v)
            /\ Dict.get (savings_vs_car r) mode
               = Some (solo_baseline r - v)).
Proof.
  intros Hruns.
  destruct (evaluate_runs d vt slider view diet Hruns) as (f & _ & Hev).
  cbv zeta in Hev. eexists. split; [exact Hev|]. project.
  set (data := value_table (factor_table (food_emission_per_kcal diet)) vt
                 (passengers_of vt slider) d (multiplier_of view)).
  set (solo := 0.44 * d * inject_Z (multiplier_of view)).
  assert (Hnd : NoDup (Dict.keys data)) by apply value_table_nodup.
  assert (Hlen : length (sorted_by_value data) = 8%nat).
  { rewrite sorted_by_value_length. unfold data, value_table, factor_table.
    rewrite !length_map. reflexivity. }
  rewrite !length_map. repeat (split; [exact Hlen|]).
  split; [now apply sorted_modes_nodup|].
  intros i mode Hi. rewrite nth_error_map in Hi.
  destruct (nth_error (sorted_by_value data) i) as [[k v]|] eqn:Hnth;
    [|discriminate].
  simpl in Hi. injection Hi as ->. exists v.
  assert (Hin : In (mode, v) data).
  { apply sorted_by_value_in. now apply nth_error_In with i. }
  rewrite !nth_error_map, Hnth. cbn [option_map fst snd].
  split; [reflexivity|]. split; [now apply get_in|].
  split; [reflexivity|].
  apply get_in; [now rewrite savings_keys|].
  change (mode, solo - v)
    with ((fun kv : string * Q => (fst kv, solo - snd kv)) (mode, v)).
  now apply in_map.
Qed.

Lemma plotted_lists_aligned_witness :
  exists r : Result,
    evaluate 5 "Standard Bike" 1 "Per Trip" "Average Western" = ret r
    /\ length (modes r) = 8%nat
    /\ length (emissions r) = 8%nat
    /\ length (savings r) = 8%nat
    /\ length (colors r) = 8%nat
    /\ NoDup (modes r)
    /\ (forall (i : nat) (mode : string),
          nth_error (modes r) i = Some mode ->
          exists v : Q,
            nth_error (emissions r) i = Some v
            /\ Dict.get (emissions_data r) mode = Some v
            /\ nth_error (savings r) i = Some (solo_baseline r - v)
            /\ Dict.get (savings_vs_car r) mode
               = Some (solo_baseline r - v)).
Proof.
  apply (plotted_lists_aligned 5 "Standard Bike" 1 "Per Trip"
           "Average Western").
  split; [simpl; tauto|discriminate].
Defined.

Lemma count_tomato (vt : string) (l : list string) :
  NoDup l -> In vt l ->
  count_occ string_dec
    (map (fun m => if m =? vt then "tomato" else "seagreen") l) "tomato"
  = 1%nat.
Proof.
  induction 1 as [|a l Ha Hnd IH]; simpl; intros Hin; [contradiction|].
  destruct (String.eqb_spec a vt) as [->|Hne].
  - destruct (string_dec "tomato" "tomato") as [_|Hd]; [|now destruct Hd].
    f_equal. apply count_occ_not_In. intros Hc. apply in_map_iff in Hc.
    destruct Hc as (m & Hm & Hml).
    destruct (String.eqb_spec m vt) as [Heq|_]; [|discriminate].
    subst m. contradiction.
  - destruct (string_dec "seagreen" "tomato") as [Hd|_]; [discriminate|].
    apply IH. destruct Hin as [->|Hin]; [now destruct Hne|exact Hin].
Qed.

(** X9: whenever the script runs, exactly one bar is drawn in "tomato",
    the bar of the selected mode, and every other bar in "seagreen". *)
Theorem one_bar_highlighted (d : Q) (vt : string) (slider : Z)
  (view diet : string) :
  runs vt slider ->
  exists r : Result,
    evaluate d vt slider view diet = ret r
    /\ count_occ string_dec (colors r) "tomato" = 1%nat
    /\ count_occ string_dec (colors r) "seagreen" = 7%nat
    /\ forall (i : nat) (mode : string),
         nth_error (modes r) i = Some mode ->
         (mode = vt -> nth_error (colors r) i = Some "tomato")
         /\ (mode <> vt -> nth_error (colors r) i = Some "seagreen").
Proof.
  intros Hruns. pose proof Hruns as [Hin _].
  destruct (evaluate_runs d vt slider view diet Hruns) as (f & _ & Hev).
  cbv zeta in Hev. eexists. split; [exact Hev|]. project.
  set (data := value_table (factor_table (food_emission_per_kcal diet)) vt
                 (passengers_of vt slider) d (multiplier_of view)).
  set (ms := map fst (sorted_by_value data)).
  assert (Hnd : NoDup ms) by (apply sorted_modes_nodup, value_table_nodup).
  assert (Hvt : In vt ms).
  { apply (Permutation_in (l := Dict.keys data)).
    - apply Permutation_map. symmetry. apply sorted_by_value_perm.
    - unfold data. rewrite value_table_keys, factor_table_keys. exact Hin. }
  assert (Hlen : length ms = 8%nat).
  { unfold ms. rewrite length_map, sorted_by_value_length.
    unfold data, value_table, factor_table. now rewrite !length_map. }
  pose proof (count_tomato vt ms Hnd Hvt) as Htomato.
  split; [exact Htomato|]. split.
  - set (cs := map (fun m => if m =? vt then "tomato" else "seagreen") ms)
      in *.
    assert (Hsum : (count_occ string_dec cs "tomato"
                    + count_occ string_dec cs "seagreen" = length ms)%nat).
    { unfold cs. clear. induction ms as [|a l IH]; [reflexivity|].
      simpl. destruct (a =? vt).
      - destruct (string_dec "tomato" "tomato") as [_|H]; [|now destruct H].
        destruct (string_dec "tomato" "seagreen") as [H|_]; [discriminate|].
        simpl. now rewrite IH.
      - destruct (string_dec "seagreen" "tomato") as [H|_]; [discriminate|].
        destruct (string_dec "seagreen" "seagreen") as [_|H];
          [|now destruct H].
        rewrite Nat.add_succ_r. now rewrite IH. }
    lia.
  - intros i mode Hi. rewrite nth_error_map, Hi. simpl. split.
    + intros ->. now rewrite String.eqb_refl.
    + intros Hne. apply String.eqb_neq in Hne. now rewrite Hne.
Qed.

Lemma one_bar_highlighted_witness :
  exists r : Result,
    evaluate 5 "E-Bike" 1 "Per Trip" "Average Western" = ret r
    /\ count_occ string_dec (colors r) "tomato" = 1%nat
    /\ count_occ string_dec (colors r) "seagreen" = 7%nat
    /\ forall (i : nat) (mode : string),
         nth_error (modes r) i = Some mode ->
         (mode = "E-Bike" -> nth_error (colors r) i = Some "tomato")
         /\ (mode <> "E-Bike" -> nth_error (colors r) i = Some "seagreen").
Proof.
  apply (one_bar_highlighted 5 "E-Bike" 1 "Per Trip" "Average Western").
  split; [simpl; tauto|discriminate].
Defined.

(** * What the selection influences *)

(** X12: the selection touches only its own bar: whenever the script runs
    for two selections with the same distance, view and diet, every mode
    that is neither of the two selected ones has the same value in both
    comparisons, its factor times distance and multiplier. *)
Theorem other_bars_do_not_move (d : Q) (vt vt' : string) (slider slider' : Z)
  (view diet : string) (mode : string) :
  runs vt slider -> runs vt' slider' ->
  In mode vehicle_types -> mode <> vt -> mode <> vt' ->
  exists (r r' : Result) (f v : Q),
    evaluate d vt slider view diet = ret r
    /\ evaluate d vt' slider' view diet = ret r'
    /\ Dict.get (factors r) mode = Some f
    /\ Dict.get (emissions_data r) mode = Some v
    /\ Dict.get (emissions_data r') mode = Some v
    /\ v == f * d * inject_Z (multiplier_of view).
Proof.
  intros Hr Hr' Hmode Hne Hne'.
  destruct (evaluate_runs d vt slider view diet Hr) as (f0 & _ & Hev).
  destruct (evaluate_runs d vt' slider' view diet Hr') as (f1 & _ & Hev').
  cbv zeta in Hev, Hev'.
  destruct (entries_of_mode (food_emission_per_kcal diet) vt
              (passengers_of vt slider) d (multiplier_of view) mode Hmode)
    as (f & Hf & Hget & Hval & _).
  destruct (entries_of_mode (food_emission_per_kcal diet) vt'
              (passengers_of vt' slider') d (multiplier_of view) mode Hmode)
    as (f' & Hf' & Hget' & Hval' & _).
  assert (f' = f) by congruence. subst f'.
  rewrite divisor_alone in Hval by tauto.
  rewrite divisor_alone in Hval' by tauto.
  eexists. eexists.
  exists f, (f / inject_Z 1 * d * inject_Z (multiplier_of view)).
  split; [exact Hev|]. split; [exact Hev'|]. project.
  split; [exact Hget|]. split; [exact Hval|]. split; [exact Hval'|].
  now rewrite Qdiv_one.
Qed.

Lemma other_bars_do_not_move_witness :
  exists (r r' : Result) (f v : Q),
    evaluate 5 "Small Car" 4 "Per Trip" "Average Western" = ret r
    /\ evaluate 5 "E-Bike" 1 "Per Trip" "Average Western" = ret r'
    /\ Dict.get (factors r) "Electric Car" = Some f
    /\ Dict.get (emissions_data r) "Electric Car" = Some v
    /\ Dict.get (emissions_data r') "Electric Car" = Some v
    /\ v == f * 5 * inject_Z (multiplier_of "Per Trip").
Proof.
  apply (other_bars_do_not_move 5 "Small Car" "E-Bike" 4 1 "Per Trip"
           "Average Western" "Electric Car").
  - split; [simpl; tauto|discriminate].
  - split; [simpl; tauto|discriminate].
  - simpl; tauto.
  - discriminate.
  - discriminate.
Defined.

(** * The ends of the chart *)

Lemma key_unique {V : Type} (l : Dict.t V) (a b : string * V) :
  NoDup (Dict.keys l) -> In a l -> In b l -> fst a = fst b -> a = b.
Proof.
  intros Hnd Ha Hb Hk. destruct a as [ka va], b as [kb vb].
  simpl in Hk. subst kb.
  pose proof (get_in _ _ _ Hnd Ha) as H1.
  pose proof (get_in _ _ _ Hnd Hb) as H2.
  congruence.
Qed.

Lemma StronglySorted_last {A : Type} (R : A -> A -> Prop) (s : list A)
  (z : A) :
  StronglySorted R (s ++ [z]) -> forall y, In y s -> R y z.
Proof.
  induction s as [|a s IH]; simpl; intros Hs y Hy; [contradiction|].
  inversion Hs as [|? ? Hs' Hall]; subst. destruct Hy as [->|Hy].
  - rewrite Forall_forall in Hall. apply Hall. apply in_or_app.
    right. now left.
  - now apply IH.
Qed.

(** The first emission of the sorted comparison is the value of any entry
    that no entry undercuts. *)
Lemma sorted_first_value (l : list (string * Q)) (x : string * Q) :
  In x l -> (forall y, In y l -> snd x <= snd y) ->
  exists h : Q,
    hd_error (map snd (sorted_by_value l)) = Some h /\ h == snd x.
Proof.
  intros Hx Hleast.
  pose proof (sorted_by_value_sorted l) as Hs.
  pose proof (proj2 (sorted_by_value_in l x) Hx) as Hxs.
  destruct (sorted_by_value l) as [|a t] eqn:E; [contradiction|].
  exists (snd a). split; [reflexivity|]. apply Qle_antisym.
  - destruct Hxs as [->|Hxt]; [apply Qle_refl|].
    inversion Hs as [|? ? _ Hall]; subst.
    rewrite Forall_forall in Hall. exact (Hall x Hxt).
  - apply Hleast. apply sorted_by_value_in. rewrite E. now left.
Qed.

(** The last emission of the sorted comparison is the value of any entry
    that no entry exceeds. *)
Lemma sorted_last_value (l : list (string * Q)) (x : string * Q) :
  In x l -> (forall y, In y l -> snd y <= snd x) ->
  exists (front : list Q) (last : Q),
    map snd (sorted_by_value l) = front ++ [last] /\ last == snd x.
Proof.
  intros Hx Hgreatest.
  pose proof (sorted_by_value_sorted l) as Hs.
  pose proof (proj2 (sorted_by_value_in l x) Hx) as Hxs.
  destruct (@exists_last _ (sorted_by_value l)) as (front & z & E).
  { intros Hnil. rewrite Hnil in Hxs. contradiction. }
  exists (map snd front), (snd z). rewrite E, map_app. split; [reflexivity|].
  rewrite E in Hxs, Hs. apply Qle_antisym.
  - apply Hgreatest. apply sorted_by_value_in. rewrite E.
    apply in_or_app. right. now left.
  - apply in_app_or in Hxs. destruct Hxs as [Hxf|[->|[]]]; [|apply Qle_refl].
    exact (StronglySorted_last value_le front z Hs x Hxf).
Qed.

(** Entries of equal value stay where they are. *)
Lemma sorted_by_value_all_equal (l : list (string * Q)) (c : Q) :
  (forall y, In y l -> snd y == c) -> sorted_by_value l = l.
Proof.
  induction l as [|x l IH]; intros Hall; [reflexivity|].
  simpl. rewrite IH by (intros y Hy; apply Hall; now right).
  destruct l as [|y t]; [reflexivity|]. simpl.
  assert (Hle : Qle_bool (snd x) (snd y) = true).
  { apply Qle_bool_iff. rewrite (Hall x), (Hall y); simpl; auto.
    apply Qle_refl. }
  now rewrite Hle.
Qed.

Lemma factor_other_ge (diet mode : string) (f : Q) :
  In (mode, f) (factor_table (food_emission_per_kcal diet)) ->
  mode <> "Local Electric Train" -> 0.064 <= f.
Proof.
  intros H Hne. factor_cases diet H; try closed_Q; now destruct Hne.
Qed.

Lemma factor_human_le (diet mode : string) (f : Q) :
  In (mode, f) (factor_table (food_emission_per_kcal diet)) ->
  mode <> "Small Car" -> mode <> "Electric Car" -> f <= 0.2.
Proof.
  intros H Hsc Hec.
  factor_cases diet H; try closed_Q;
    first [now destruct Hsc | now destruct Hec].
Qed.

Lemma factor_train (c f : Q) :
  In ("Local Electric Train", f) (factor_table c) -> f == 0.00935.
Proof.
  intros H. pose proof (get_in _ _ _ (factor_table_nodup c) H) as Hget.
  change (Some (0.00935 + inject_Z 0 * c) = Some f) in Hget.
  injection Hget as <-. change (inject_Z 0) with 0. ring.
Qed.

(** The entry of the train undercuts none but is undercut by none. *)
Lemma lowest_value (d : Q) (vt : string) (slider : Z) (view diet : string) :
  valid_input d vt slider ->
  exists t : Q,
    In ("Local Electric Train", t)
      (value_table (factor_table (food_emission_per_kcal diet)) vt
         (passengers_of vt slider) d (multiplier_of view))
    /\ t == 0.00935 * d * inject_Z (multiplier_of view)
    /\ forall y,
         In y (value_table (factor_table (food_emission_per_kcal diet)) vt
                 (passengers_of vt slider) d (multiplier_of view)) ->
         t <= snd y.
Proof.
  intros Hvalid. pose proof Hvalid as (Hd & _ & _).
  set (c := food_emission_per_kcal diet).
  set (p := passengers_of vt slider).
  set (data := value_table (factor_table c) vt p d (multiplier_of view)).
  destruct (factor_table_total c "Local Electric Train")
    as (e & _ & Hf); [simpl; tauto|].
  set (f := e + inject_Z (Dict.get_or KCAL_PER_KM "Local Electric Train" 0%Z)
                * c) in *.
  pose proof (factor_train c f Hf) as Hft.
  set (x := ("Local Electric Train",
             f / inject_Z 1 * d * inject_Z (multiplier_of view))).
  assert (Hx : In x data).
  { apply value_table_in. exists f. split; [exact Hf|].
    rewrite divisor_alone; [reflexivity|].
    intros [_ [H|H]]; discriminate. }
  exists (snd x). split; [exact Hx|]. split.
  { unfold x. cbn [snd]. now rewrite Qdiv_one, Hft. }
  intros y Hy.
  destruct (string_dec (fst y) "Local Electric Train") as [Hk|Hne].
  - rewrite (key_unique data y x (value_table_nodup _ _ _ _ _) Hy Hx Hk).
    apply Qle_refl.
  - destruct y as [mode v]. cbn [fst] in Hne. apply value_table_in in Hy.
    destruct Hy as (g & Hg & ->). unfold x. cbn [snd].
    apply scale_le; [|exact Hd].
    pose proof (valid_divisor d vt slider mode Hvalid) as [Hn1 Hn5].
    fold p in Hn1, Hn5.
    pose proof (factor_other_ge diet mode g Hg Hne) as Hge.
    assert (H0 : 0 <= g) by lra.
    pose proof (Qdiv_anti_le g _ 5 H0 (conj Hn1 Hn5)) as Hdiv.
    assert (H5 : 0.0128 <= g / inject_Z 5).
    { apply Qle_shift_div_l; [reflexivity|].
      apply Qle_trans with 0.064; [closed_Q|exact Hge]. }
    rewrite Qdiv_one, Hft.
    apply Qle_trans with 0.0128; [closed_Q|].
    apply Qle_trans with (g / inject_Z 5); assumption.
Qed.

(** X13: for every valid input no mode has a smaller value than the local
    electric train, whose value is 0.00935 times distance and multiplier;
    the first bar of the sorted comparison, the smallest one, has that
    value. *)
Theorem train_is_lowest (d : Q) (vt : string) (slider : Z)
  (view diet : string) :
  valid_input d vt slider ->
  exists (r : Result) (t h : Q),
    evaluate d vt slider view diet = ret r
    /\ Dict.get (emissions_data r) "Local Electric Train" = Some t
    /\ t == 0.00935 * d * inject_Z (multiplier_of view)
    /\ (forall (mode : string) (v : Q),
          In (mode, v) (emissions_data r) -> t <= v)
    /\ hd_error (emissions r) = Some h
    /\ h == t.
Proof.
  intros Hvalid. pose proof (valid_input_runs _ _ _ Hvalid) as Hruns.
  destruct (evaluate_runs d vt slider view diet Hruns) as (f & _ & Hev).
  destruct (lowest_value d vt slider view diet Hvalid)
    as (t & Hin & Ht & Hleast).
  destruct (sorted_first_value _ ("Local Electric Train", t) Hin Hleast)
    as (h & Hhd & Hh).
  cbv zeta in Hev. eexists. exists t, h. split; [exact Hev|]. project.
  split; [apply get_in; [apply value_table_nodup|exact Hin]|].
  split; [exact Ht|]. split.
  - intros mode v Hv. exact (Hleast (mode, v) Hv).
  - split; [exact Hhd|exact Hh].
Qed.

Lemma train_is_lowest_witness :
  exists (r : Result) (t h : Q),
    evaluate 2 "Electric Car" 5 "Per Trip" "Low-carbon / Plant-based"
    = ret r
    /\ Dict.get (emissions_data r) "Local Electric Train" = Some t
    /\ t == 0.00935 * 2 * inject_Z (multiplier_of "Per Trip")
    /\ (forall (mode : string) (v : Q),
          In (mode, v) (emissions_data r) -> t <= v)
    /\ hd_error (emissions r) = Some h
    /\ h == t.
Proof.
  apply (train_is_lowest 2 "Electric Car" 5 "Per Trip"
           "Low-carbon / Plant-based").
  split; [discriminate|]. split; [simpl; tauto|intros _; lia].
Defined.

(** The entry that no entry exceeds: the small car, or the electric car
    when the small car is shared. *)
Lemma largest_value (d : Q) (vt : string) (slider : Z) (view diet : string) :
  valid_input d vt slider ->
  exists x : string * Q,
    In x (value_table (factor_table (food_emission_per_kcal diet)) vt
            (passengers_of vt slider) d (multiplier_of view))
    /\ (vt = "Small Car" /\ (2 <= slider)%Z ->
        fst x = "Electric Car"
        /\ snd x == 0.24 * d * inject_Z (multiplier_of view))
    /\ (~ (vt = "Small Car" /\ (2 <= slider)%Z) ->
        fst x = "Small Car"
        /\ snd x == 0.44 * d * inject_Z (multiplier_of view))
    /\ forall y,
         In y (value_table (factor_table (food_emission_per_kcal diet)) vt
                 (passengers_of vt slider) d (multiplier_of view)) ->
         snd y <= snd x.
Proof.
  intros Hvalid. pose proof Hvalid as (Hd & _ & Hrange).
  set (c := food_emission_per_kcal diet) in *.
  set (p := passengers_of vt slider) in *.
  set (data := value_table (factor_table c) vt p d (multiplier_of view)) in *.
  assert (Hdiv : forall mode, (1 <= divisor vt p mode <= 5)%Z)
    by (intros mode; apply (valid_divisor d vt slider mode Hvalid)).
  assert (Hnd : NoDup (Dict.keys data)) by apply value_table_nodup.
  assert (Hshared : {vt = "Small Car" /\ (2 <= slider)%Z}
                    + {~ (vt = "Small Car" /\ (2 <= slider)%Z)}).
  { destruct (string_dec vt "Small Car") as [Hsc|Hsc];
      [destruct (Z_le_dec 2 slider) as [Hs|Hs]|];
      [left; now split|right; tauto|right; tauto]. }
  destruct Hshared as [[Hsc Hs]|Hnot].
  - (* the small car, shared: the electric car is on top *)
    destruct (factor_table_total c "Electric Car") as (e & _ & Hf);
      [simpl; tauto|].
    set (f := e + inject_Z (Dict.get_or KCAL_PER_KM "Electric Car" 0%Z) * c)
      in *.
    pose proof (factor_electric_car c f Hf) as Hfe.
    set (x := ("Electric Car",
               f / inject_Z 1 * d * inject_Z (multiplier_of view))).
    assert (Hx : In x data).
    { apply value_table_in. exists f. split; [exact Hf|].
      rewrite divisor_alone; [reflexivity|].
      intros [H _]. rewrite Hsc in H. discriminate. }
    exists x. split; [exact Hx|]. split.
    { intros _. split; [reflexivity|]. unfold x. cbn [snd].
      now rewrite Qdiv_one, Hfe. }
    split; [intros H; exfalso; apply H; now split|].
    intros y Hy.
    destruct (string_dec (fst y) "Electric Car") as [Hk|Hne].
    { rewrite (key_unique data y x Hnd Hy Hx Hk). apply Qle_refl. }
    destruct y as [mode v]. cbn [fst] in Hne. apply value_table_in in Hy.
    destruct Hy as (g & Hg & ->). unfold x. cbn [snd].
    apply scale_le; [|exact Hd]. rewrite Qdiv_one, Hfe.
    destruct (string_dec mode "Small Car") as [->|Hm].
    + pose proof (factor_small_car c g Hg) as Hg44.
      assert (Hp : divisor vt p "Small Car" = slider).
      { subst vt. unfold p. rewrite divisor_selected. reflexivity. }
      rewrite Hp.
      assert (H0 : 0 <= g) by (rewrite Hg44; discriminate).
      assert (Hs5 : (1 <= 2 <= slider)%Z) by lia.
      pose proof (Qdiv_anti_le g 2 slider H0 Hs5) as Hle.
      apply Qle_trans with (g / inject_Z 2); [exact Hle|].
      rewrite Hg44. closed_Q.
    + pose proof (factor_human_le diet mode g Hg Hm Hne) as H2.
      pose proof (diet_factor_nonneg diet mode g Hg) as H0.
      pose proof (Qdiv_le_self g _ H0 (proj1 (Hdiv mode))) as Hle.
      apply Qle_trans with g; [exact Hle|].
      apply Qle_trans with 0.2; [exact H2|closed_Q].
  - (* otherwise the small car is on top, undivided *)
    destruct (factor_table_total c "Small Car") as (e & _ & Hf);
      [simpl; tauto|].
    set (f := e + inject_Z (Dict.get_or KCAL_PER_KM "Small Car" 0%Z) * c)
      in *.
    pose proof (factor_small_car c f Hf) as Hfs.
    set (x := ("Small Car",
               f / inject_Z 1 * d * inject_Z (multiplier_of view))).
    assert (Hone : divisor vt p "Small Car" = 1%Z).
    { destruct (string_dec vt "Small Car") as [Hsc|Hsc].
      - assert (Hs : slider = 1%Z).
        { subst vt. specialize (Hrange eq_refl).
          destruct (Z_le_dec 2 slider) as [H2|H2]; [|lia].
          exfalso. apply Hnot. now split. }
        subst vt slider. reflexivity.
      - apply divisor_alone. intros [H _]. now apply Hsc. }
    assert (Hx : In x data).
    { apply value_table_in. exists f. split; [exact Hf|].
      now rewrite Hone. }
    exists x. split; [exact Hx|].
    split; [intros H; now destruct Hnot|]. split.
    { intros _. split; [reflexivity|]. unfold x. cbn [snd].
      now rewrite Qdiv_one, Hfs. }
    intros y Hy.
    destruct (string_dec (fst y) "Small Car") as [Hk|Hne].
    { rewrite (key_unique data y x Hnd Hy Hx Hk). apply Qle_refl. }
    destruct y as [mode v]. cbn [fst] in Hne. apply value_table_in in Hy.
    destruct Hy as (g & Hg & ->). unfold x. cbn [snd].
    apply scale_le; [|exact Hd]. rewrite Qdiv_one, Hfs.
    pose proof (factor_other_le diet mode g Hg Hne) as H2.
    pose proof (diet_factor_nonneg diet mode g Hg) as H0.
    pose proof (Qdiv_le_self g _ H0 (proj1 (Hdiv mode))) as Hle.
    apply Qle_trans with g; [exact Hle|].
    apply Qle_trans with 0.24; [exact H2|closed_Q].
Qed.

(** X14: for every valid input no mode has a larger value than the small
    car, whose value is 0.44 times distance and multiplier, unless the
    small car is selected with two or more passengers: then none has a
    larger value than the electric car, at 0.24 times distance and
    multiplier; the last bar of the sorted comparison, the largest one,
    has that value. *)
Theorem largest_bar (d : Q) (vt : string) (slider : Z) (view diet : string) :
  valid_input d vt slider ->
  exists (r : Result) (top : Q) (front : list Q) (last : Q),
    evaluate d vt slider view diet = ret r
    /\ (vt = "Small Car" /\ (2 <= slider)%Z ->
        Dict.get (emissions_data r) "Electric Car" = Some top
        /\ top == 0.24 * d * inject_Z (multiplier_of view))
    /\ (~ (vt = "Small Car" /\ (2 <= slider)%Z) ->
        Dict.get (emissions_data r) "Small Car" = Some top
        /\ top == 0.44 * d * inject_Z (multiplier_of view))
    /\ (forall (mode : string) (v : Q),
          In (mode, v) (emissions_data r) -> v <= top)
    /\ emissions r = front ++ [last]
    /\ last == top.
Proof.
  intros Hvalid. pose proof (valid_input_runs _ _ _ Hvalid) as Hruns.
  destruct (evaluate_runs d vt slider view diet Hruns) as (f & _ & Hev).
  destruct (largest_value d vt slider view diet Hvalid)
    as ([name top] & Hin & Hshared & Hother & Hgreatest).
  destruct (sorted_last_value _ (name, top) Hin Hgreatest)
    as (front & last & Hlast & Hl).
  cbn [fst snd] in *.
  cbv zeta in Hev. eexists. exists top, front, last.
  split; [exact Hev|]. project.
  split.
  { intros H. destruct (Hshared H) as [Hname Htop]. subst name.
    split; [apply get_in; [apply value_table_nodup|exact Hin]|exact Htop]. }
  split.
  { intros H. destruct (Hother H) as [Hname Htop]. subst name.
    split; [apply get_in; [apply value_table_nodup|exact Hin]|exact Htop]. }
  split.
  - intros mode v Hv. exact (Hgreatest (mode, v) Hv).
  - split; [exact Hlast|exact Hl].
Qed.

Lemma largest_bar_witness :
  exists (r : Result) (top : Q) (front : list Q) (last : Q),
    evaluate 5 "Small Car" 2 "Per Trip" "Average Western" = ret r
    /\ ("Small Car" = "Small Car" /\ (2 <= 2)%Z ->
        Dict.get (emissions_data r) "Electric Car" = Some top
        /\ top == 0.24 * 5 * inject_Z (multiplier_of "Per Trip"))
    /\ (~ ("Small Car" = "Small Car" /\ (2 <= 2)%Z) ->
        Dict.get (emissions_data r) "Small Car" = Some top
        /\ top == 0.44 * 5 * inject_Z (multiplier_of "Per Trip"))
    /\ (forall (mode : string) (v : Q),
          In (mode, v) (emissions_data r) -> v <= top)
    /\ emissions r = front ++ [last]
    /\ last == top.
Proof.
  apply (largest_bar 5 "Small Car" 2 "Per Trip" "Average Western").
  split; [discriminate|]. split; [simpl; tauto|intros _; lia].
Defined.

(** X15: at distance 0, whenever the script runs, every emission is 0 and
    the sorted comparison lists the modes in the order of the
    embodied-emissions table. *)
Theorem zero_distance_keeps_table_order (d : Q) (vt : string) (slider : Z)
  (view diet : string) :
  runs vt slider -> d == 0 ->
  exists r : Result,
    evaluate d vt slider view diet = ret r
    /\ modes r = vehicle_types
    /\ sorted_modes r = Dict.items (emissions_data r)
    /\ (forall e : Q, In e (emissions r) -> e == 0)
    /\ total_emissions r == 0.
Proof.
  intros Hruns Hd.
  destruct (evaluate_runs d vt slider view diet Hruns) as (f & _ & Hev).
  cbv zeta in Hev. eexists. split; [exact Hev|]. project.
  set (data := value_table (factor_table (food_emission_per_kcal diet)) vt
                 (passengers_of vt slider) d (multiplier_of view)).
  assert (Hzero : forall y, In y data -> snd y == 0).
  { intros [mode v] Hy. apply value_table_in in Hy.
    destruct Hy as (g & _ & ->). simpl. rewrite Hd. ring. }
  rewrite (sorted_by_value_all_equal data 0 Hzero).
  split.
  { change (Dict.keys data = vehicle_types). unfold data.
    now rewrite value_table_keys, factor_table_keys. }
  split; [reflexivity|]. split.
  - intros e He. apply in_map_iff in He. destruct He as (y & <- & Hy).
    now apply Hzero.
  - rewrite Hd. ring.
Qed.

Lemma zero_distance_keeps_table_order_witness :
  exists r : Result,
    evaluate 0 "Electric Car" 3 "Per Year" "Average Western" = ret r
    /\ modes r = vehicle_types
    /\ sorted_modes r = Dict.items (emissions_data r)
    /\ (forall e : Q, In e (emissions r) -> e == 0)
    /\ total_emissions r == 0.
Proof.
  apply (zero_distance_keeps_table_order 0 "Electric Car" 3 "Per Year"
           "Average Western").
  - split; [simpl; tauto|discriminate].
  - reflexivity.
Defined.

(** * The plot *)

Lemma ret_inj {A : Type} (a b : A) : ret a = ret b -> a = b.
Proof. now intros [= ->]. Qed.

Lemma max_of_nonempty (l : list Q) :
  l <> [] -> exists top, max_of l = inr top.
Proof.
  destruct l as [|a l]; [now intros H|]. intros _. eexists. reflexivity.
Qed.

(** The texts of the bars of a sorted comparison, one per entry. *)
Lemma bar_texts_sorted (E : list Q) (top b : Q) (l : list (string * Q)) :
  max_of E = inr top ->
  bar_texts E (map snd l) (map (fun kv => b - snd kv) l)
  = inr (map (fun kv =>
                {| text_x := snd kv + top * 0.01;
                   text_width := snd kv;
                   text_reduction :=
                     if gt (b - snd kv) 0.1 then Some (b - snd kv)
                     else None |})
           l).
Proof.
  intros Hmax. induction l as [|x l IH]; [reflexivity|].
  simpl. rewrite Hmax, IH. reflexivity.
Qed.

Lemma sorted_values_nonempty (c : Q) (vt : string) (p : Z) (d : Q) (m : Z) :
  map snd (sorted_by_value (value_table (factor_table c) vt p d m)) <> [].
Proof.
  intros H. apply (f_equal (@length Q)) in H.
  rewrite length_map, sorted_by_value_length in H.
  unfold value_table, factor_table in H. rewrite !length_map in H.
  discriminate.
Qed.

(** The plot of a run, with the largest emission it scales by. *)
Lemma plot_runs (d : Q) (vt : string) (slider : Z) (view diet : string) :
  runs vt slider ->
  exists (r : Result) (top : Q),
    evaluate d vt slider view diet = ret r
    /\ max_of (emissions r) = inr top
    /\ plot r view
       = inr {| texts :=
                  map (fun kv =>
                         {| text_x := snd kv + top * 0.01;
                            text_width := snd kv;
                            text_reduction :=
                              if gt (solo_baseline r - snd kv) 0.1
                              then Some (solo_baseline r - snd kv)
                              else None |})
                    (sorted_modes r);
                xlim := (0, top * 1.25);
                label_suffix := label_suffix_of view |}.
Proof.
  intros Hruns.
  destruct (evaluate_runs d vt slider view diet Hruns) as (f & _ & Hev).
  cbv zeta in Hev.
  destruct (max_of_nonempty _
              (sorted_values_nonempty (food_emission_per_kcal diet) vt
                 (passengers_of vt slider) d (multiplier_of view)))
    as [top Htop].
  eexists. exists top. split; [exact Hev|]. unfold plot. project.
  split; [exact Htop|].
  rewrite (bar_texts_sorted _ top _ _ Htop), Htop. reflexivity.
Qed.

(** X18: whenever the script runs, the text at each position belongs to
    the mode named there: it prints the value of that mode, is anchored
    one hundredth of the largest emission right of the end of the bar, and
    mentions a reduction exactly when the saving of that mode against the
    car exceeds 0.1, the reduction being that saving. *)
Theorem bar_text_of_mode (d : Q) (vt : string) (slider : Z)
  (view diet : string) :
  runs vt slider ->
  exists (r : Result) (p : Plot) (top : Q),
    evaluate d vt slider view diet = ret r
    /\ plot r view = inr p
    /\ max_of (emissions r) = inr top
    /\ forall (i : nat) (mode : string),
         nth_error (modes r) i = Some mode ->
         exists (t : BarText) (v s : Q),
           nth_error (texts p) i = Some t
           /\ Dict.get (emissions_data r) mode = Some v
           /\ Dict.get (savings_vs_car r) mode = Some s
           /\ text_width t = v
           /\ text_x t = v + top * 0.01
           /\ (0.1 < s -> text_reduction t = Some s)
           /\ (s <= 0.1 -> text_reduction t = None).
Proof.
  intros Hruns.
  destruct (plot_runs d vt slider view diet Hruns)
    as (r & top & Hev & Hmax & Hplot).
  destruct (evaluate_runs d vt slider view diet Hruns) as (f & _ & Hev').
  cbv zeta in Hev'. rewrite Hev' in Hev. apply ret_inj in Hev. subst r.
  revert Hmax Hplot. project. intros Hmax Hplot.
  set (data := value_table (factor_table (food_emission_per_kcal diet)) vt
                 (passengers_of vt slider) d (multiplier_of view)) in *.
  set (solo := 0.44 * d * inject_Z (multiplier_of view)) in *.
  eexists. eexists. exists top. split; [exact Hev'|].
  split; [exact Hplot|]. project. split; [exact Hmax|].
  cbn [texts]. intros i mode Hi. rewrite nth_error_map in Hi.
  destruct (nth_error (sorted_by_value data) i) as [[k v]|] eqn:Hnth;
    [|discriminate].
  simpl in Hi. injection Hi as ->.
  assert (Hin : In (mode, v) data).
  { apply sorted_by_value_in. now apply nth_error_In with i. }
  eexists. exists v, (solo - v).
  rewrite nth_error_map, Hnth. cbn [option_map fst snd].
  split; [reflexivity|].
  split; [apply get_in; [apply value_table_nodup|exact Hin]|].
  split.
  { apply get_in; [rewrite savings_keys; apply value_table_nodup|].
    change (mode, solo - v)
      with ((fun kv : string * Q => (fst kv, solo - snd kv)) (mode, v)).
    now apply in_map. }
  cbn [text_width text_x text_reduction].
  split; [reflexivity|]. split; [reflexivity|]. split.
  - intros Hs. apply gt_spec in Hs. now rewrite Hs.
  - intros Hs. apply gt_false in Hs. now rewrite Hs.
Qed.

Lemma bar_text_of_mode_witness :
  exists (r : Result) (p : Plot) (top : Q),
    evaluate 5 "Standard Bike" 1 "Per Trip" "Average Western" = ret r
    /\ plot r "Per Trip" = inr p
    /\ max_of (emissions r) = inr top
    /\ forall (i : nat) (mode : string),
         nth_error (modes r) i = Some mode ->
         exists (t : BarText) (v s : Q),
           nth_error (texts p) i = Some t
           /\ Dict.get (emissions_data r) mode = Some v
           /\ Dict.get (savings_vs_car r) mode = Some s
           /\ text_width t = v
           /\ text_x t = v + top * 0.01
           /\ (0.1 < s -> text_reduction t = Some s)
           /\ (s <= 0.1 -> text_reduction t = None).
Proof.
  apply (bar_text_of_mode 5 "Standard Bike" 1 "Per Trip" "Average Western").
  split; [simpl; tauto|discriminate].
Defined.

(** The texts of a 5 km trip by standard bike: every bar but the last, that
    of the small car, mentions its reduction. *)
Example plot_of_a_bike_trip :
  exists (r : Result) (p : Plot),
    evaluate 5 "Standard Bike" 1 "Per Trip" "Average Western" = ret r
    /\ plot r "Per Trip" = inr p
    /\ map text_reduction (texts p)
       = map Some (firstn 7 (savings r)) ++ [None].
Proof.
  eexists. eexists. split; [reflexivity|]. split; reflexivity.
Qed.

(** * Binary64 *)

(** X19: computed in binary64, for every diet, the factor of each mode
    outside the calorie table is its embodied constant bit for bit: adding
    the product of the integer 0 and the food emission per kcal changes
    nothing, so the baseline constant 0.44 is also the small car's
    factor. *)
Theorem binary64_factors_without_food (diet : string) :
  exists B : Dict.t float,
    Binary64.EMISSIONS_FACTORS (Binary64.food_emission_per_kcal diet) = ret B
    /\ Dict.get B "Small Car" = Dict.get Binary64.embodied_emissions "Small Car"
    /\ forall (mode : string) (e : float),
         In (mode, e) Binary64.embodied_emissions ->
         ~ In mode (Dict.keys KCAL_PER_KM) ->
         Dict.get B mode = Some e.
Proof.
  unfold Binary64.food_emission_per_kcal.
  destruct (diet =? "Average Western").
  - eexists. split; [vm_compute; reflexivity|]. split; [reflexivity|].
    intros mode e H Hnot. unfold Binary64.embodied_emissions in H.
    table_cases H; try reflexivity; exfalso; apply Hnot; simpl; tauto.
  - eexists. split; [vm_compute; reflexivity|]. split; [reflexivity|].
    intros mode e H Hnot. unfold Binary64.embodied_emissions in H.
    table_cases H; try reflexivity; exfalso; apply Hnot; simpl; tauto.
Qed.

(** * Diet and ranking *)

Lemma value_of_other_mode (c : Q) (vt : string) (p : Z) (d : Q) (m : Z)
  (mode : string) (e : Q) :
  In (mode, e) embodied_emissions ->
  ~ (mode = "Small Car" \/ mode = "Electric Car") ->
  Dict.get (value_table (factor_table c) vt p d m) mode
  = Some ((e + inject_Z (Dict.get_or KCAL_PER_KM mode 0%Z) * c)
          / inject_Z 1 * d * inject_Z m).
Proof.
  intros He Hcar. apply get_in; [apply value_table_nodup|].
  apply value_table_in. eexists. split.
  - apply (in_map
      (fun kv =>
         (fst kv,
          snd kv + inject_Z (Dict.get_or KCAL_PER_KM (fst kv) 0%Z) * c))
      _ _ He).
  - cbn [fst snd]. rewrite divisor_alone; [reflexivity|tauto].
Qed.

(** X20: the diet decides which bike has the lower factor: under "Average
    Western" the factor of the e-bike is strictly below that of the
    lightweight bike, under "Low-carbon / Plant-based" strictly above it,
    in exact arithmetic and in binary64; for every valid input the values
    of the two bikes follow that order or coincide. *)
Theorem diet_decides_bike_order (d : Q) (vt : string) (slider : Z)
  (view : string) :
  valid_input d vt slider ->
  exists (rw rl : Result) (few flw fel fll ew lw el ll : Q),
    evaluate d vt slider view "Average Western" = ret rw
    /\ evaluate d vt slider view "Low-carbon / Plant-based" = ret rl
    /\ Dict.get (factors rw) "E-Bike" = Some few
    /\ Dict.get (factors rw) "Lightweight Bike" = Some flw
    /\ Dict.get (factors rl) "E-Bike" = Some fel
    /\ Dict.get (factors rl) "Lightweight Bike" = Some fll
    /\ few < flw
    /\ fll < fel
    /\ Dict.get (emissions_data rw) "E-Bike" = Some ew
    /\ Dict.get (emissions_data rw) "Lightweight Bike" = Some lw
    /\ Dict.get (emissions_data rl) "E-Bike" = Some el
    /\ Dict.get (emissions_data rl) "Lightweight Bike" = Some ll
    /\ ew <= lw
    /\ ll <= el
    /\ exists (Bw Bl : Dict.t float) (bew blw bel bll : float),
         Binary64.EMISSIONS_FACTORS
           (Binary64.food_emission_per_kcal "Average Western") = ret Bw
         /\ Binary64.EMISSIONS_FACTORS
              (Binary64.food_emission_per_kcal "Low-carbon / Plant-based")
            = ret Bl
         /\ Dict.get Bw "E-Bike" = Some bew
         /\ Dict.get Bw "Lightweight Bike" = Some blw
         /\ Dict.get Bl "E-Bike" = Some bel
         /\ Dict.get Bl "Lightweight Bike" = Some bll
         /\ PrimFloat.ltb bew blw = true
         /\ PrimFloat.ltb bll bel = true.
Proof.
  intros Hvalid. pose proof (valid_input_runs _ _ _ Hvalid) as Hruns.
  pose proof Hvalid as (Hd & _ & _).
  destruct (evaluate_runs d vt slider view "Average Western" Hruns)
    as (fw & _ & Hevw).
  destruct (evaluate_runs d vt slider view "Low-carbon / Plant-based" Hruns)
    as (fl & _ & Hevl).
  cbv zeta in Hevw, Hevl.
  do 2 eexists. do 8 eexists.
  split; [exact Hevw|]. split; [exact Hevl|]. project.
  change (food_emission_per_kcal "Average Western") with 0.0025.
  change (food_emission_per_kcal "Low-carbon / Plant-based") with 0.0012.
  split; [exact (factor_table_get 0.0025 "E-Bike" 0.05
                   ltac:(simpl; tauto))|].
  split; [exact (factor_table_get 0.0025 "Lightweight Bike" 0.016
                   ltac:(simpl; tauto))|].
  split; [exact (factor_table_get 0.0012 "E-Bike" 0.05
                   ltac:(simpl; tauto))|].
  split; [exact (factor_table_get 0.0012 "Lightweight Bike" 0.016
                   ltac:(simpl; tauto))|].
  split; [closed_Q|]. split; [closed_Q|].
  split; [apply (value_of_other_mode _ _ _ _ _ "E-Bike" 0.05);
          [simpl; tauto|intros [H|H]; discriminate]|].
  split; [apply (value_of_other_mode _ _ _ _ _ "Lightweight Bike" 0.016);
          [simpl; tauto|intros [H|H]; discriminate]|].
  split; [apply (value_of_other_mode _ _ _ _ _ "E-Bike" 0.05);
          [simpl; tauto|intros [H|H]; discriminate]|].
  split; [apply (value_of_other_mode _ _ _ _ _ "Lightweight Bike" 0.016);
          [simpl; tauto|intros [H|H]; discriminate]|].
  split; [apply scale_le; [closed_Q|exact Hd]|].
  split; [apply scale_le; [closed_Q|exact Hd]|].
  do 6 eexists.
  split; [vm_compute; reflexivity|]. split; [vm_compute; reflexivity|].
  repeat (split; [reflexivity|]). vm_compute. reflexivity.
Qed.

Lemma diet_decides_bike_order_witness :
  exists (rw rl : Result) (few flw fel fll ew lw el ll : Q),
    evaluate 5 "Standard Bike" 1 "Per Trip" "Average Western" = ret rw
    /\ evaluate 5 "Standard Bike" 1 "Per Trip" "Low-carbon / Plant-based"
       = ret rl
    /\ Dict.get (factors rw) "E-Bike" = Some few
    /\ Dict.get (factors rw) "Lightweight Bike" = Some flw
    /\ Dict.get (factors rl) "E-Bike" = Some fel
    /\ Dict.get (factors rl) "Lightweight Bike" = Some fll
    /\ few < flw
    /\ fll < fel
    /\ Dict.get (emissions_data rw) "E-Bike" = Some ew
    /\ Dict.get (emissions_data rw) "Lightweight Bike" = Some lw
    /\ Dict.get (emissions_data rl) "E-Bike" = Some el
    /\ Dict.get (emissions_data rl) "Lightweight Bike" = Some ll
    /\ ew <= lw
    /\ ll <= el
    /\ exists (Bw Bl : Dict.t float) (bew blw bel bll : float),
         Binary64.EMISSIONS_FACTORS
           (Binary64.food_emission_per_kcal "Average Western") = ret Bw
         /\ Binary64.EMISSIONS_FACTORS
              (Binary64.food_emission_per_kcal "Low-carbon / Plant-based")
            = ret Bl
         /\ Dict.get Bw "E-Bike" = Some bew
         /\ Dict.get Bw "Lightweight Bike" = Some blw
         /\ Dict.get Bl "E-Bike" = Some bel
         /\ Dict.get Bl "Lightweight Bike" = Some bll
         /\ PrimFloat.ltb bew blw = true
         /\ PrimFloat.ltb bll bel = true.
Proof.
  apply (diet_decides_bike_order 5 "Standard Bike" 1 "Per Trip").
  split; [discriminate|]. split; [simpl; tauto|discriminate].
Defined.
